(** * whisper_jni: the JNI bridge to whisper.cpp and its fallback stub

  A shallow embedding of [app/src/main/cpp/whisper_jni.cpp] and
  [app/src/main/cpp/whisper_jni_stub.cpp].

  - [Binary32] : IEEE-754 single precision (the C++ [float]) on top of the
    standard library's [SpecFloat], with the exact rational value of a float.
  - [Pcm] : the fixed-offset WAV reader of [transcribe], on a stream that
    can or cannot seek.
  - [Jni] : the values that cross the JNI boundary, the external world
    (JVM, file system, whisper.cpp engine) as an oracle record, the effects
    a call performs, and the monad the entry points are written in.
  - [Bridge] : the five entry points of whisper_jni.cpp over the globals
    [g_ctx] and [g_params], each as one step of a single caller.
  - [Stub] : the five entry points of whisper_jni_stub.cpp.
  - [Session] : the critical sections under [g_mutex], and
    [transcribeWithParams] among other callers: it takes the mutex twice,
    once for the parameter update and once inside [transcribe], and other
    callers can get it in between. *)

From Stdlib Require Import ZArith QArith List String Bool Lia.
From Stdlib Require Import Strings.Byte.
From Stdlib Require Import Floats.SpecFloat.
Import ListNotations.

Local Open Scope Z_scope.

(* ===================================================================== *)
(** ** C++ [float]: IEEE-754 binary32 *)

Module Binary32.

Definition prec : Z := 24.
Definition emax : Z := 128.

Definition float := spec_float.

(** [static_cast<float>(n)] for an integer [n] (round to nearest even). *)
Definition of_int (n : Z) : float := binary_normalize prec emax n 0 false.

(** [x / y] on floats. *)
Definition div (x y : float) : float := SFdiv prec emax x y.

(** The real number a float denotes; [None] for infinities and NaN. *)
Definition to_Q (f : float) : option Q :=
  match f with
  | S754_zero _ => Some 0%Q
  | S754_finite s m e =>
      let mz := if s then Z.neg m else Z.pos m in
      Some match e with
           | Zneg p => Qmake mz (Pos.pow 2 p)
           | _ => inject_Z (mz * 2 ^ e)
           end
  | S754_infinity _ | S754_nan => None
  end.

(** [f] is a finite float whose value is exactly the rational [q]. *)
Definition has_value (f : float) (q : Q) : Prop :=
  match to_Q f with
  | Some v => Qeq v q
  | None => False
  end.

Definition has_valueb (f : float) (q : Q) : bool :=
  match to_Q f with
  | Some v => Qeq_bool v q
  | None => false
  end.

(** [f] is finite and lies in the half-open interval from -1 to 1. *)
Definition in_unit_range (f : float) : Prop :=
  match to_Q f with
  | Some v => (-1 <= v)%Q /\ (v < 1)%Q
  | None => False
  end.

End Binary32.

(* ===================================================================== *)
(** ** The WAV reader of [transcribe] *)

Module Pcm.

Import Binary32.

Definition byte_val (b : byte) : Z := Z.of_N (Byte.to_N b).

(** The [int16_t] that [fread(&sample, sizeof(int16_t), 1, file)] stores
    when it reads the bytes [b0], [b1] in this order: every Android ABI is
    little-endian, and [int16_t] is two's complement. *)
Definition int16_of_bytes (b0 b1 : byte) : Z :=
  let u := byte_val b0 + 256 * byte_val b1 in
  if u <? 32768 then u else u - 65536.

(** [static_cast<float>(sample) / 32768.0f] *)
Definition normalize (sample : Z) : float :=
  div (of_int sample) (of_int 32768).

(** [while (fread(&sample, sizeof(int16_t), 1, file) == 1)
       pcm_data.push_back(static_cast<float>(sample) / 32768.0f);]
    on the bytes that remain in the file; a trailing single byte makes
    [fread] return 0 and ends the loop. *)
Fixpoint read_samples (rest : list byte) : list float :=
  match rest with
  | b0 :: b1 :: rest' => normalize (int16_of_bytes b0 b1) :: read_samples rest'
  | _ => []
  end.

(** What [fopen] hands back: the bytes behind the path, and whether the
    stream can seek.  A regular file can; a FIFO, a pipe or a terminal
    cannot. *)
Record stream := {
  bytes : list byte;
  seekable : bool
}.

Definition wav_header_size : nat := 44.

(** [fseek(file, 44, SEEK_SET)], whose result the code does not look at:
    on a seekable stream the position moves to offset 44 (past the end of a
    shorter file, where the first [fread] returns 0); on a stream that
    cannot seek the call fails and the position stays at the first byte. *)
Definition after_seek (file : stream) : list byte :=
  if seekable file then skipn wav_header_size (bytes file) else bytes file.

(** The seek followed by the read loop, on the opened stream. *)
Definition read_wav (contents : stream) : list float :=
  read_samples (after_seek contents).

(** A regular file with the bytes [contents]. *)
Definition regular (contents : list byte) : stream :=
  {| bytes := contents; seekable := true |}.

(** A pipe that delivers the bytes [contents]. *)
Definition pipe (contents : list byte) : stream :=
  {| bytes := contents; seekable := false |}.

(** *** What a well-formed file looks like (used to state the claims) *)

Definition byte_of_Z (z : Z) : byte :=
  match Byte.of_N (Z.to_N (z mod 256)) with
  | Some b => b
  | None => Byte.x00
  end.

(** The two bytes of a 16-bit two's complement little-endian sample. *)
Definition le16_bytes (sample : Z) : list byte :=
  [byte_of_Z sample; byte_of_Z (sample / 256)].

Definition is_int16 (sample : Z) : Prop := -32768 <= sample < 32768.

(** The bytes of a header followed by the samples, two bytes each. *)
Definition wav_file (header : list byte) (samples : list Z) : list byte :=
  header ++ flat_map le16_bytes samples.

(** Exhaustive check of [check] on [lo, lo + 2^depth). *)
Fixpoint check_range (check : Z -> bool) (depth : nat) (lo : Z) : bool :=
  match depth with
  | O => check lo
  | S d => check_range check d lo && check_range check d (lo + 2 ^ Z.of_nat d)
  end.

End Pcm.

(* ===================================================================== *)
(** ** The JNI boundary, the outside world, and effects *)

Module Jni.

Import Binary32.

(** [jint] is a 32-bit signed integer; [jboolean] carries [JNI_TRUE] or
    [JNI_FALSE]; a [jstring] argument is a non-null reference to a Java
    string, identified here with its characters; a returned [jstring] is the
    argument of [NewStringUTF]. *)
Definition jint := Z.
Definition jboolean := bool.
Definition jstring := string.

(** [int n = u] for an [unsigned] value [u]. *)
Definition to_int32 (u : Z) : Z := (u + 2 ^ 31) mod 2 ^ 32 - 2 ^ 31.

(** A non-null [whisper_context*]. *)
Definition whisper_context := positive.

(** The fields of whisper.h's parameter structs that the bridge writes. *)
Record whisper_context_params := { use_gpu : bool }.

Inductive whisper_sampling_strategy :=
| WHISPER_SAMPLING_GREEDY
| WHISPER_SAMPLING_BEAM_SEARCH.

Record whisper_full_params := {
  strategy : whisper_sampling_strategy;
  print_realtime : bool;
  wp_print_progress : bool;
  print_timestamps : bool;
  wp_print_special : bool;
  wp_translate : bool;
  wp_language : string;
  wp_n_threads : Z;
  wp_offset_ms : Z;
  wp_duration_ms : Z;
  single_segment : bool
}.

(** What the world outside the bridge answers during one call: the JVM
    ([GetStringUTFChars] yields [None] for [nullptr]), the C++ runtime
    ([std::thread::hardware_concurrency], an [unsigned]), the file system
    ([fopen] for reading yields the opened stream, or [None] when the path
    cannot be opened), and the whisper.cpp engine ([whisper_full] yields its
    status, and the two segment queries read what it left in the context). *)
Record World := {
  GetStringUTFChars : jstring -> option string;
  hardware_concurrency : Z;
  fopen : string -> option Pcm.stream;
  whisper_init_from_file_with_params :
    string -> whisper_context_params -> option whisper_context;
  whisper_full : whisper_context -> whisper_full_params -> list float -> Z;
  whisper_full_n_segments : whisper_context -> Z;
  whisper_full_get_segment_text : whisper_context -> Z -> option string;
  whisper_print_system_info : string
}.

Inductive android_LogPriority :=
| ANDROID_LOG_DEBUG
| ANDROID_LOG_INFO
| ANDROID_LOG_WARN
| ANDROID_LOG_ERROR.

(** What a call does to the outside world, in order. *)
Inductive effect :=
| Log (prio : android_LogPriority) (fmt : string)
| StringRelease (s : jstring)
| FileOpen (path : string)
| FileClose (path : string)
| EngineFree (ctx : whisper_context)
| EngineInit (path : string) (cparams : whisper_context_params)
| EngineFull (ctx : whisper_context) (wparams : whisper_full_params)
             (pcm : list float)
| EngineNSegments (ctx : whisper_context)
| EngineSegmentText (ctx : whisper_context) (i : Z)
| EngineSystemInfo.

Definition is_engine_call (e : effect) : bool :=
  match e with
  | EngineFree _ | EngineInit _ _ | EngineFull _ _ _
  | EngineNSegments _ | EngineSegmentText _ _ | EngineSystemInfo => true
  | _ => false
  end.

Definition is_file_access (e : effect) : bool :=
  match e with
  | FileOpen _ | FileClose _ => true
  | _ => false
  end.

(** A native method: reads the world, updates the globals of type [S],
    performs effects, and returns. *)
Definition M (S A : Type) : Type := World -> S -> A * S * list effect.

Definition ret {S A} (a : A) : M S A := fun _ s => (a, s, []).

Definition bind {S A B} (c : M S A) (k : A -> M S B) : M S B :=
  fun w s =>
    let '(a, s1, t1) := c w s in
    let '(b, s2, t2) := k a w s1 in
    (b, s2, t1 ++ t2).

Definition ask {S A} (q : World -> A) : M S A := fun w s => (q w, s, []).
Definition get {S} : M S S := fun _ s => (s, s, []).
Definition put {S} (s : S) : M S unit := fun _ _ => (tt, s, []).
Definition emit {S} (e : effect) : M S unit := fun _ s => (tt, s, [e]).

Definition result {S A} (r : A * S * list effect) : A := fst (fst r).
Definition state_after {S A} (r : A * S * list effect) : S := snd (fst r).
Definition effects {S A} (r : A * S * list effect) : list effect := snd r.

Declare Scope jni_scope.
Delimit Scope jni_scope with jni.
Notation "x <- c ;; k" := (bind c (fun x => k))
  (at level 61, c at next level, right associativity) : jni_scope.
Notation "c ;; k" := (bind c (fun _ => k))
  (at level 61, right associativity) : jni_scope.

Definition LOGD {S} (fmt : string) : M S unit := emit (Log ANDROID_LOG_DEBUG fmt).
Definition LOGI {S} (fmt : string) : M S unit := emit (Log ANDROID_LOG_INFO fmt).
Definition LOGW {S} (fmt : string) : M S unit := emit (Log ANDROID_LOG_WARN fmt).
Definition LOGE {S} (fmt : string) : M S unit := emit (Log ANDROID_LOG_ERROR fmt).

(** The native methods of the Java class [WhisperJNI]; whisper_jni.cpp and
    whisper_jni_stub.cpp each define all five, and the build links one. *)
Class WhisperJNI (S : Type) := {
  initModel : jstring -> M S jint;
  transcribe : jstring -> M S string;
  transcribeWithParams : jstring -> jstring -> jboolean -> jint -> M S string;
  releaseModel : M S unit;
  getVersion : M S string
}.

Inductive call :=
| InitModel (modelPath : jstring)
| Transcribe (audioPath : jstring)
| TranscribeWithParams (audioPath language : jstring)
                       (translate : jboolean) (threads : jint)
| ReleaseModel
| GetVersion.

Inductive retval :=
| RetInt (n : jint)
| RetString (s : string)
| RetVoid.

Local Open Scope jni_scope.

Definition invoke {S} `{WhisperJNI S} (c : call) : M S retval :=
  match c with
  | InitModel modelPath => n <- initModel modelPath ;; ret (RetInt n)
  | Transcribe audioPath => s <- transcribe audioPath ;; ret (RetString s)
  | TranscribeWithParams audioPath language translate threads =>
      s <- transcribeWithParams audioPath language translate threads ;;
      ret (RetString s)
  | ReleaseModel => releaseModel ;; ret RetVoid
  | GetVersion => s <- getVersion ;; ret (RetString s)
  end.

End Jni.

(* ===================================================================== *)
(** ** whisper_jni.cpp *)

Module Bridge.

Import Binary32 Pcm Jni.
Local Open Scope string_scope.
Local Open Scope Z_scope.
Local Open Scope jni_scope.

Record whisper_params := {
  n_threads : Z;
  offset_ms : Z;
  duration_ms : Z;
  translate : bool;
  print_special : bool;
  print_progress : bool;
  no_timestamps : bool;
  language : string
}.

(** The member initialisers of [struct whisper_params]. *)
Definition default_params : whisper_params := {|
  n_threads := 4;
  offset_ms := 0;
  duration_ms := 0;
  translate := false;
  print_special := false;
  print_progress := false;
  no_timestamps := true;
  language := "en"
|}.

(** The globals of the anonymous namespace; [g_ctx = None] is [nullptr].
    [g_mutex] guards every access to them and is not modelled. *)
Record globals := {
  g_ctx : option whisper_context;
  g_params : whisper_params
}.

Definition initial_globals : globals :=
  {| g_ctx := None; g_params := default_params |}.

Definition set_ctx (c : option whisper_context) : M globals unit :=
  g <- get ;; put {| g_ctx := c; g_params := g_params g |}.

Definition set_params (f : whisper_params -> whisper_params) : M globals unit :=
  g <- get ;; put {| g_ctx := g_ctx g; g_params := f (g_params g) |}.

Definition with_n_threads (n : Z) (p : whisper_params) : whisper_params :=
  {| n_threads := n; offset_ms := offset_ms p; duration_ms := duration_ms p;
     translate := translate p; print_special := print_special p;
     print_progress := print_progress p; no_timestamps := no_timestamps p;
     language := language p |}.

Definition with_translate (b : bool) (p : whisper_params) : whisper_params :=
  {| n_threads := n_threads p; offset_ms := offset_ms p;
     duration_ms := duration_ms p;
     translate := b; print_special := print_special p;
     print_progress := print_progress p; no_timestamps := no_timestamps p;
     language := language p |}.

Definition with_language (l : string) (p : whisper_params) : whisper_params :=
  {| n_threads := n_threads p; offset_ms := offset_ms p;
     duration_ms := duration_ms p;
     translate := translate p; print_special := print_special p;
     print_progress := print_progress p; no_timestamps := no_timestamps p;
     language := l |}.

(** [whisper_free(g_ctx); g_ctx = nullptr;] *)
Definition free_ctx (ctx : whisper_context) : M globals unit :=
  emit (EngineFree ctx) ;; set_ctx None.

Definition initModel (modelPath : jstring) : M globals jint :=
  g <- get ;;
  match g_ctx g with
  | Some ctx => free_ctx ctx
  | None => ret tt
  end ;;
  path <- ask (fun w => GetStringUTFChars w modelPath) ;;
  match path with
  | None =>
      LOGE "Failed to get model path string" ;;
      ret (-1)
  | Some path =>
      LOGI "Loading whisper model from: %s" ;;
      let cparams := {| use_gpu := false |} in
      emit (EngineInit path cparams) ;;
      ctx <- ask (fun w => whisper_init_from_file_with_params w path cparams) ;;
      set_ctx ctx ;;
      emit (StringRelease modelPath) ;;
      match ctx with
      | None =>
          LOGE "Failed to initialize whisper model" ;;
          ret (-2)
      | Some _ =>
          n_cores <- ask (fun w => to_int32 (hardware_concurrency w)) ;;
          set_params (with_n_threads (Z.min n_cores 4)) ;;
          LOGI "Whisper model initialized successfully (threads: %d)" ;;
          ret 0
      end
  end.

(** The request [transcribe] builds from [g_params]. *)
Definition full_params (p : whisper_params) : whisper_full_params := {|
  strategy := WHISPER_SAMPLING_GREEDY;
  print_realtime := false;
  wp_print_progress := print_progress p;
  print_timestamps := negb (no_timestamps p);
  wp_print_special := print_special p;
  wp_translate := translate p;
  wp_language := language p;
  wp_n_threads := n_threads p;
  wp_offset_ms := offset_ms p;
  wp_duration_ms := duration_ms p;
  single_segment := true
|}.

(** The body of [for (int i = 0; i < n_segments; ++i)], on the indices that
    remain. *)
Fixpoint collect_segments (ctx : whisper_context) (indices : list Z)
                          (result : string) : M globals string :=
  match indices with
  | [] => ret result
  | i :: indices' =>
      emit (EngineSegmentText ctx i) ;;
      text <- ask (fun w => whisper_full_get_segment_text w ctx i) ;;
      collect_segments ctx indices'
        match text with
        | Some text => result ++ text
        | None => result
        end
  end.

Definition segment_indices (n_segments : Z) : list Z :=
  map Z.of_nat (seq 0 (Z.to_nat n_segments)).

Definition transcribe (audioPath : jstring) : M globals string :=
  g <- get ;;
  match g_ctx g with
  | None =>
      LOGE "Model not initialized" ;;
      ret EmptyString
  | Some ctx =>
      path <- ask (fun w => GetStringUTFChars w audioPath) ;;
      match path with
      | None =>
          LOGE "Failed to get audio path string" ;;
          ret EmptyString
      | Some path =>
          LOGI "Transcribing audio: %s" ;;
          emit (FileOpen path) ;;
          file <- ask (fun w => fopen w path) ;;
          match file with
          | None =>
              LOGE "Failed to open audio file: %s" ;;
              emit (StringRelease audioPath) ;;
              ret EmptyString
          | Some contents =>
              let pcm_data := read_wav contents in
              emit (FileClose path) ;;
              emit (StringRelease audioPath) ;;
              match pcm_data with
              | [] =>
                  LOGE "No audio data read" ;;
                  ret EmptyString
              | _ :: _ =>
                  LOGD "Audio samples: %zu" ;;
                  let wparams := full_params (g_params g) in
                  emit (EngineFull ctx wparams pcm_data) ;;
                  status <- ask (fun w => whisper_full w ctx wparams pcm_data) ;;
                  if negb (status =? 0) then
                    LOGE "Whisper inference failed" ;;
                    ret EmptyString
                  else
                    emit (EngineNSegments ctx) ;;
                    n_segments <- ask (fun w => whisper_full_n_segments w ctx) ;;
                    result <- collect_segments ctx
                                (segment_indices n_segments) EmptyString ;;
                    LOGI "Transcription complete: %zu chars" ;;
                    ret result
              end
          end
      end
  end.

Definition transcribeWithParams (audioPath language : jstring)
           (translate : jboolean) (threads : jint) : M globals string :=
  lang <- ask (fun w => GetStringUTFChars w language) ;;
  match lang with
  | Some lang =>
      set_params (with_language lang) ;;
      emit (StringRelease language)
  | None => ret tt
  end ;;
  set_params (with_translate translate) ;;
  (if 0 <? threads then set_params (with_n_threads threads) else ret tt) ;;
  transcribe audioPath.

(** What the first critical section of [transcribeWithParams] makes of
    [g_params], given what [GetStringUTFChars] answered for the language. *)
Definition overridden (lang : option string) (translate : jboolean)
           (threads : jint) (p : whisper_params) : whisper_params :=
  let p1 := match lang with
            | Some lang => with_language lang p
            | None => p
            end in
  let p2 := with_translate translate p1 in
  if 0 <? threads then with_n_threads threads p2 else p2.

Definition releaseModel : M globals unit :=
  g <- get ;;
  match g_ctx g with
  | Some ctx =>
      free_ctx ctx ;;
      LOGI "Whisper model released"
  | None => ret tt
  end.

Definition getVersion : M globals string :=
  emit EngineSystemInfo ;;
  ask whisper_print_system_info.

#[export] Instance surface : WhisperJNI globals := {|
  Jni.initModel := initModel;
  Jni.transcribe := transcribe;
  Jni.transcribeWithParams := transcribeWithParams;
  Jni.releaseModel := releaseModel;
  Jni.getVersion := getVersion
|}.

(** The states of the globals that sequences of calls can produce, when
    the world of every call satisfies [env]. *)
Inductive reachable (env : World -> Prop) : globals -> Prop :=
| reach_start : reachable env initial_globals
| reach_call (w : World) (c : call) (g : globals) :
    reachable env g -> env w ->
    reachable env (state_after (invoke c w g)).

End Bridge.

(* ===================================================================== *)
(** ** whisper_jni_stub.cpp *)

Module Stub.

Import Jni.
Local Open Scope string_scope.
Local Open Scope Z_scope.
Local Open Scope jni_scope.

(** The stub has no globals. *)
Definition initModel (modelPath : jstring) : M unit jint :=
  LOGW "Whisper stub: initModel called - native library not available" ;;
  ret (-1).

Definition transcribe (audioPath : jstring) : M unit string :=
  LOGW "Whisper stub: transcribe called - native library not available" ;;
  ret EmptyString.

Definition transcribeWithParams (audioPath language : jstring)
           (translate : jboolean) (threads : jint) : M unit string :=
  LOGW "Whisper stub: transcribeWithParams called - native library not available" ;;
  ret EmptyString.

Definition releaseModel : M unit unit :=
  LOGW "Whisper stub: releaseModel called".

Definition getVersion : M unit string :=
  ret "stub-1.0 (whisper.cpp not available)".

#[export] Instance surface : WhisperJNI unit := {|
  Jni.initModel := initModel;
  Jni.transcribe := transcribe;
  Jni.transcribeWithParams := transcribeWithParams;
  Jni.releaseModel := releaseModel;
  Jni.getVersion := getVersion
|}.

End Stub.

(* ===================================================================== *)
(** ** Concrete worlds and states *)

Module Examples.

Import Jni Bridge.
Local Open Scope string_scope.

(** A device with [cores] cores on which every JNI string decodes, every
    model file loads as context 1, every audio path opens as a regular file
    with the contents [audio], and inference succeeds with one segment "hello". *)
Definition device (cores : Z) (audio : list byte) : World := {|
  GetStringUTFChars := fun s => Some s;
  hardware_concurrency := cores;
  fopen := fun _ => Some (Pcm.regular audio);
  whisper_init_from_file_with_params := fun _ _ => Some 1%positive;
  whisper_full := fun _ _ _ => 0;
  whisper_full_n_segments := fun _ => 1;
  whisper_full_get_segment_text := fun _ _ => Some "hello";
  whisper_print_system_info := "NEON = 1"
|}.

(** The same device when the JVM cannot hand out string characters. *)
Definition out_of_memory (cores : Z) (audio : list byte) : World := {|
  GetStringUTFChars := fun _ => None;
  hardware_concurrency := cores;
  fopen := fopen (device cores audio);
  whisper_init_from_file_with_params :=
    whisper_init_from_file_with_params (device cores audio);
  whisper_full := whisper_full (device cores audio);
  whisper_full_n_segments := whisper_full_n_segments (device cores audio);
  whisper_full_get_segment_text :=
    whisper_full_get_segment_text (device cores audio);
  whisper_print_system_info := whisper_print_system_info (device cores audio)
|}.

(** The globals after a model was loaded as context 1. *)
Definition loaded : globals :=
  {| g_ctx := Some 1%positive; g_params := default_params |}.

Definition header44 : list byte := repeat Byte.x00 44.

(** Samples 1, -1, 32767, -32768 after a 44-byte header. *)
Definition four_samples : list Z := [1; -1; 32767; -32768].

End Examples.

(* ===================================================================== *)
(** ** Several callers, and what is counted in the effects of a call *)

Module Session.

Import Pcm Jni Bridge.
Local Open Scope string_scope.
Local Open Scope Z_scope.
Local Open Scope jni_scope.

(** The first critical section of [transcribeWithParams]: the block that
    holds [g_mutex] while it updates [g_params]. *)
Definition update_params (language : jstring) (translate : jboolean)
           (threads : jint) : M globals unit :=
  lang <- ask (fun w => GetStringUTFChars w language) ;;
  match lang with
  | Some lang =>
      set_params (with_language lang) ;;
      emit (StringRelease language)
  | None => ret tt
  end ;;
  set_params (with_translate translate) ;;
  (if 0 <? threads then set_params (with_n_threads threads) else ret tt).

(** What a caller does while it holds [g_mutex]: the body of [initModel],
    of [transcribe] or of [releaseModel], or the parameter update of
    [transcribeWithParams]. *)
Inductive critical_section :=
| InInit (modelPath : jstring)
| InTranscribe (audioPath : jstring)
| InUpdate (language : jstring) (translate : jboolean) (threads : jint)
| InRelease.

Definition enter (s : critical_section) : M globals unit :=
  match s with
  | InInit modelPath => Bridge.initModel modelPath ;; ret tt
  | InTranscribe audioPath => Bridge.transcribe audioPath ;; ret tt
  | InUpdate language translate threads =>
      update_params language translate threads
  | InRelease => Bridge.releaseModel
  end.

(** The critical sections that other callers run one after the other, each
    in the world its caller meets. *)
Fixpoint others_run (others : list (World * critical_section)) (g : globals)
  : globals * list effect :=
  match others with
  | [] => (g, [])
  | (w, s) :: others' =>
      let r := enter s w g in
      let '(g', t) := others_run others' (state_after r) in
      (g', (effects r ++ t)%list)
  end.

(** [transcribeWithParams] as it runs among other callers: it gives up
    [g_mutex] after the parameter update and takes it again inside
    [transcribe], and [others] are the critical sections that get the mutex
    in between. *)
Definition transcribeWithParams_among
           (others : list (World * critical_section))
           (audioPath language : jstring) (translate : jboolean)
           (threads : jint) : M globals string :=
  fun w g =>
    let '(_, g1, t1) := update_params language translate threads w g in
    let '(g2, t2) := others_run others g1 in
    let '(text, g3, t3) := Bridge.transcribe audioPath w g2 in
    (text, g3, (t1 ++ t2 ++ t3)%list).

(** A section of another caller that is a plain [transcribe]. *)
Definition is_transcribe (s : World * critical_section) : bool :=
  match snd s with
  | InTranscribe _ => true
  | _ => false
  end.



Definition is_inference (e : effect) : bool :=
  match e with EngineFull _ _ _ => true | _ => false end.

Definition is_string_release (e : effect) : bool :=
  match e with StringRelease _ => true | _ => false end.

Definition is_file_open (e : effect) : bool :=
  match e with FileOpen _ => true | _ => false end.

Definition is_file_close (e : effect) : bool :=
  match e with FileClose _ => true | _ => false end.

Definition count (p : effect -> bool) (t : list effect) : nat :=
  List.length (filter p t).

(** The text of segment [i], the empty string for a null text. *)
Definition segment_text (w : World) (ctx : whisper_context) (i : Z) : string :=
  match whisper_full_get_segment_text w ctx i with
  | Some text => text
  | None => EmptyString
  end.

(** The texts of the segments [indices] end to end. *)
Definition segments_text (w : World) (ctx : whisper_context)
           (indices : list Z) : string :=
  fold_right String.append EmptyString (map (segment_text w ctx) indices).

(** The effects of [transcribe] up to the end of the file access. *)
Definition read_effects (audioPath : jstring) (path : string) : list effect :=
  [Log ANDROID_LOG_INFO "Transcribing audio: %s";
   FileOpen path; FileClose path; StringRelease audioPath].

(** A world in which JNI strings decode or not, the model loads as [model],
    every audio path opens as [audio], inference ends with [status] and
    leaves the segment texts [segments]. *)
Definition scenario (decode : bool) (model : option whisper_context)
           (audio : option stream) (status : Z)
           (segments : list (option string)) : World := {|
  GetStringUTFChars := fun s => if decode then Some s else None;
  hardware_concurrency := 8;
  fopen := fun _ => audio;
  whisper_init_from_file_with_params := fun _ _ => model;
  whisper_full := fun _ _ _ => status;
  whisper_full_n_segments := fun _ => Z.of_nat (List.length segments);
  whisper_full_get_segment_text := fun _ i => nth (Z.to_nat i) segments None;
  whisper_print_system_info := "NEON = 1"
|}.

(** A regular file: a header and the samples 1, -1, 32767, -32768. *)
Definition clip : stream :=
  regular (wav_file Examples.header44 Examples.four_samples).

(** The device of [Examples.device] when every audio path is a pipe that
    delivers [audio]. *)
Definition pipe_device (cores : Z) (audio : list byte) : World := {|
  GetStringUTFChars := GetStringUTFChars (Examples.device cores audio);
  hardware_concurrency := cores;
  fopen := fun _ => Some (pipe audio);
  whisper_init_from_file_with_params :=
    whisper_init_from_file_with_params (Examples.device cores audio);
  whisper_full := whisper_full (Examples.device cores audio);
  whisper_full_n_segments :=
    whisper_full_n_segments (Examples.device cores audio);
  whisper_full_get_segment_text :=
    whisper_full_get_segment_text (Examples.device cores audio);
  whisper_print_system_info :=
    whisper_print_system_info (Examples.device cores audio)
|}.

End Session.

(* ===================================================================== *)
(** * Properties *)

(** Unfolds an entry point down to pairs and lists. *)
Ltac run :=
cbv [Bridge.initModel Bridge.transcribe Bridge.transcribeWithParams
     Bridge.releaseModel Bridge.getVersion
     Stub.initModel Stub.transcribe Stub.transcribeWithParams
     Stub.releaseModel Stub.getVersion
     Jni.bind Jni.ret Jni.ask Jni.get Jni.put Jni.emit
     Jni.LOGD Jni.LOGI Jni.LOGW Jni.LOGE
     Bridge.set_ctx Bridge.set_params Bridge.free_ctx
     Jni.result Jni.state_after Jni.effects
     Bridge.g_ctx Bridge.g_params fst snd app].

Section PcmFacts.

Import Binary32 Pcm.

Lemma has_valueb_true (f : float) (q : Q) :
  has_valueb f q = true -> has_value f q.
Proof.
  unfold has_valueb, has_value.
  destruct (to_Q f) as [v|]; [apply Qeq_bool_eq | discriminate].
Qed.

Lemma check_range_sound (check : Z -> bool) (depth : nat) :
  forall lo s,
    check_range check depth lo = true ->
    lo <= s < lo + 2 ^ Z.of_nat depth ->
    check s = true.
Proof.
  induction depth as [|d IH]; intros lo s Hc Hs.
  - simpl in *. replace s with lo by lia. exact Hc.
  - cbn [check_range] in Hc. apply andb_prop in Hc. destruct Hc as [Hl Hr].
    rewrite Nat2Z.inj_succ, Z.pow_succ_r in Hs by lia.
    destruct (Z_lt_dec s (lo + 2 ^ Z.of_nat d)).
    + apply (IH lo); [exact Hl | lia].
    + apply (IH (lo + 2 ^ Z.of_nat d)); [exact Hr | lia].
Qed.

(** The conversion and the division are both exact on the whole range of
    [int16_t]: checked on each of the 65536 values. *)
Lemma normalize_all_int16 :
  check_range (fun s => has_valueb (normalize s) (Qmake s 32768)) 16 (-32768)
  = true.
Proof. vm_compute. reflexivity. Qed.

Lemma normalize_exact (sample : Z) :
  is_int16 sample -> has_value (normalize sample) (Qmake sample 32768).
Proof.
  intros Hs. apply has_valueb_true.
  apply (check_range_sound
           (fun s => has_valueb (normalize s) (Qmake s 32768)) 16 (-32768)).
  - exact normalize_all_int16.
  - unfold is_int16 in Hs. change (2 ^ Z.of_nat 16) with 65536. lia.
Qed.

Lemma byte_val_of_Z (z : Z) : byte_val (byte_of_Z z) = z mod 256.
Proof.
  unfold byte_val, byte_of_Z.
  assert (Hm : 0 <= z mod 256 < 256) by (apply Z.mod_pos_bound; lia).
  destruct (Byte.of_N (Z.to_N (z mod 256))) as [b|] eqn:E.
  - apply Byte.to_of_N in E. rewrite E. apply Z2N.id. lia.
  - apply Byte.of_N_None_iff in E. lia.
Qed.

Lemma int16_of_le16_bytes (sample : Z) :
  is_int16 sample ->
  int16_of_bytes (byte_of_Z sample) (byte_of_Z (sample / 256)) = sample.
Proof.
  unfold is_int16, int16_of_bytes. intros Hs.
  rewrite !byte_val_of_Z.
  pose proof (Z.div_mod sample 256 ltac:(lia)) as Hd.
  pose proof (Z.mod_pos_bound sample 256 ltac:(lia)) as Hb.
  assert (Hq : -128 <= sample / 256 < 128) by lia.
  destruct (Z_lt_dec (sample / 256) 0) as [Hneg|Hpos].
  - replace ((sample / 256) mod 256) with (sample / 256 + 256).
    + destruct (Z.ltb_spec (sample mod 256 + 256 * (sample / 256 + 256)) 32768); lia.
    + apply Z.mod_unique with (q := -1); lia.
  - rewrite (Z.mod_small (sample / 256)) by lia.
    destruct (Z.ltb_spec (sample mod 256 + 256 * (sample / 256)) 32768); lia.
Qed.

Lemma read_samples_le16 (samples : list Z) :
  Forall is_int16 samples ->
  read_samples (flat_map le16_bytes samples) = map normalize samples.
Proof.
  induction 1 as [|s l Hs _ IH]; [reflexivity|].
  cbn [flat_map le16_bytes app read_samples map].
  rewrite int16_of_le16_bytes by exact Hs. now rewrite IH.
Qed.

Lemma read_wav_wav_file (file : stream) (header : list byte)
      (samples : list Z) :
  bytes file = wav_file header samples ->
  seekable file = true ->
  List.length header = wav_header_size ->
  Forall is_int16 samples ->
  read_wav file = map normalize samples.
Proof.
  intros Hb Hk Hh Hs. unfold read_wav, after_seek, wav_file in *.
  rewrite Hk, Hb.
  rewrite skipn_app, <- Hh, skipn_all, Nat.sub_diag. simpl skipn.
  now apply read_samples_le16.
Qed.

Lemma read_wav_short (file : stream) :
  seekable file = true ->
  (List.length (bytes file) <= wav_header_size)%nat -> read_wav file = [].
Proof.
  intros Hk Hl. unfold read_wav, after_seek. rewrite Hk.
  now rewrite skipn_all2.
Qed.

End PcmFacts.

(* ===================================================================== *)
(** ** The bridge *)

Section BridgeFacts.

Import Binary32 Pcm Jni Bridge.
Local Open Scope string_scope.
Local Open Scope list_scope.
Local Open Scope Z_scope.

Lemma collect_segments_state (ctx : whisper_context) (indices : list Z) :
  forall result0 w g,
    state_after (collect_segments ctx indices result0 w g) = g.
Proof.
  induction indices as [|i l IH]; intros r w g; [reflexivity|].
  cbn [collect_segments]. unfold bind at 1 2. cbn.
  specialize (IH match whisper_full_get_segment_text w ctx i with
                 | Some text => (r ++ text)%string
                 | None => r
                 end w g).
  destruct (collect_segments ctx l _ w g) as [[r' g'] t'].
  exact IH.
Qed.

Lemma transcribe_state (audioPath : jstring) (w : World) (g : globals) :
  state_after (transcribe audioPath w g) = g.
Proof.
  destruct g as [[ctx|] p]; run; [|reflexivity].
  destruct (GetStringUTFChars w audioPath) as [path|]; [|reflexivity].
  destruct (fopen w path) as [contents|]; [|reflexivity].
  destruct (read_wav contents) as [|f pcm]; [reflexivity|].
  destruct (whisper_full w ctx _ (f :: pcm) =? 0); cbn; [|reflexivity].
  pose proof (collect_segments_state ctx
                (segment_indices (whisper_full_n_segments w ctx)) EmptyString
                w {| g_ctx := Some ctx; g_params := p |}) as H.
  destruct (collect_segments _ _ _ _ _) as [[r' g'] t'].
  exact H.
Qed.

(** [transcribeWithParams] is the parameter update followed by
    [transcribe] in the updated globals. *)
Lemma transcribeWithParams_unfold
      (audioPath language0 : jstring) (translate0 : jboolean)
      (threads : jint) (w : World) (g : globals) :
  let g1 := {| g_ctx := g_ctx g;
               g_params := overridden (GetStringUTFChars w language0)
                                      translate0 threads (g_params g) |} in
  result (transcribeWithParams audioPath language0 translate0 threads w g)
  = result (transcribe audioPath w g1)
  /\ state_after
       (transcribeWithParams audioPath language0 translate0 threads w g)
     = g1.
Proof.
  destruct g as [c p]. unfold overridden.
  cbv [transcribeWithParams bind ret ask get put emit set_params
       result state_after g_ctx g_params fst snd].
  destruct (GetStringUTFChars w language0) as [lang|];
    destruct (0 <? threads);
    match goal with
    | |- context [transcribe ?a ?w ?g] =>
        pose proof (transcribe_state a w g) as H;
        destruct (transcribe a w g) as [[r g'] t];
        unfold state_after in H; cbn in H; subst g'; split; reflexivity
    end.
Qed.

(** The three ways [initModel] can end. *)
Lemma initModel_cases (modelPath : jstring) (w : World) (g : globals) :
  let freed := match g_ctx g with
               | Some ctx => [EngineFree ctx]
               | None => []
               end in
  let cparams := {| use_gpu := false |} in
  initModel modelPath w g
  = match GetStringUTFChars w modelPath with
    | None =>
        (-1, {| g_ctx := None; g_params := g_params g |},
         freed ++ [Log ANDROID_LOG_ERROR "Failed to get model path string"])
    | Some path =>
        match whisper_init_from_file_with_params w path cparams with
        | None =>
            (-2, {| g_ctx := None; g_params := g_params g |},
             freed ++ [Log ANDROID_LOG_INFO "Loading whisper model from: %s";
                       EngineInit path cparams;
                       StringRelease modelPath;
                       Log ANDROID_LOG_ERROR
                           "Failed to initialize whisper model"])
        | Some ctx =>
            (0,
             {| g_ctx := Some ctx;
                g_params :=
                  with_n_threads
                    (Z.min (to_int32 (hardware_concurrency w)) 4)
                    (g_params g) |},
             freed ++ [Log ANDROID_LOG_INFO "Loading whisper model from: %s";
                       EngineInit path cparams;
                       StringRelease modelPath;
                       Log ANDROID_LOG_INFO
                           "Whisper model initialized successfully (threads: %d)"])
        end
    end.
Proof.
  destruct g as [[c|] p]; run;
    (destruct (GetStringUTFChars w modelPath) as [path|]; [|reflexivity]);
    destruct (whisper_init_from_file_with_params w path _); reflexivity.
Qed.

(** The status -1 means that the path string did not decode, and nothing
    else. *)
Lemma initModel_path_failure_iff (modelPath : jstring) (w : World)
      (g : globals) :
  result (initModel modelPath w g) = -1
  <-> GetStringUTFChars w modelPath = None.
Proof.
  rewrite initModel_cases.
  destruct (GetStringUTFChars w modelPath) as [path|].
  - destruct (whisper_init_from_file_with_params w path _);
      split; discriminate.
  - split; reflexivity.
Qed.

Lemma releaseModel_cases (w : World) (g : globals) :
  releaseModel w g
  = match g_ctx g with
    | Some ctx =>
        (tt, {| g_ctx := None; g_params := g_params g |},
         [EngineFree ctx; Log ANDROID_LOG_INFO "Whisper model released"])
    | None => (tt, g, [])
    end.
Proof. destruct g as [[c|] p]; reflexivity. Qed.

Lemma state_after_bind_ret {S A B} (c : M S A) (f : A -> B)
      (w : World) (s : S) :
  state_after (bind c (fun a => ret (f a)) w s) = state_after (c w s).
Proof.
  unfold bind, ret, state_after. destruct (c w s) as [[a s1] t1]. reflexivity.
Qed.

Lemma invoke_state (c : call) (w : World) (g : globals) :
  state_after (invoke c w g)
  = match c with
    | InitModel modelPath => state_after (initModel modelPath w g)
    | TranscribeWithParams audioPath lang tr threads =>
        {| g_ctx := g_ctx g;
           g_params := overridden (GetStringUTFChars w lang) tr threads
                                  (g_params g) |}
    | ReleaseModel => {| g_ctx := None; g_params := g_params g |}
    | Transcribe _ | GetVersion => g
    end.
Proof.
  destruct c as [modelPath|audioPath|audioPath lang tr threads| |];
    cbv [invoke Jni.initModel Jni.transcribe Jni.transcribeWithParams
         Jni.releaseModel Jni.getVersion surface];
    rewrite state_after_bind_ret.
  - reflexivity.
  - apply transcribe_state.
  - apply transcribeWithParams_unfold.
  - rewrite releaseModel_cases. destruct g as [[c|] p]; reflexivity.
  - reflexivity.
Qed.

(** What a call makes of [n_threads]. *)
Lemma invoke_n_threads (c : call) (w : World) (g : globals) :
  let n' := n_threads (g_params (state_after (invoke c w g))) in
  n' = n_threads (g_params g)
  \/ n' = Z.min (to_int32 (hardware_concurrency w)) 4
  \/ 0 < n'.
Proof.
  intros n'. subst n'. rewrite invoke_state.
  destruct c as [modelPath|audioPath|audioPath lang tr threads| |];
    try (left; reflexivity).
  - rewrite initModel_cases.
    destruct (GetStringUTFChars w modelPath) as [path|]; [|left; reflexivity].
    destruct (whisper_init_from_file_with_params w path _);
      [right; left|left]; reflexivity.
  - cbn [g_params]. unfold overridden.
    destruct (Z.ltb_spec 0 threads); [right; right; assumption|].
    left. destruct (GetStringUTFChars w lang); reflexivity.
Qed.

End BridgeFacts.

(* ===================================================================== *)
(** ** The specification's claims *)

Section Claims.

Import Binary32 Pcm Jni Bridge.
Local Open Scope string_scope.
Local Open Scope list_scope.
Local Open Scope Z_scope.

Lemma normalize_in_unit_range (sample : Z) :
  is_int16 sample -> in_unit_range (normalize sample).
Proof.
  intros Hs. pose proof (normalize_exact sample Hs) as Hv.
  unfold has_value in Hv. unfold in_unit_range.
  destruct (to_Q (normalize sample)) as [v|]; [|exact Hv].
  rewrite Hv. unfold is_int16 in Hs. unfold Qle, Qlt. simpl. lia.
Qed.

Lemma normalize_samples (samples : list Z) :
  Forall is_int16 samples ->
  Forall2 (fun f s => has_value f (Qmake s 32768) /\ in_unit_range f)
          (map normalize samples) samples.
Proof.
  induction 1 as [|s l Hs _ IH]; constructor; [|exact IH].
  split; [apply normalize_exact | apply normalize_in_unit_range]; exact Hs.
Qed.

(** C1 as stated does not hold for every file: when the audio path is a
    pipe that delivers a 44-byte header and four samples, the seek fails
    unnoticed, the header is decoded too, and the reader yields 26 floats,
    the first of them from header bytes; [transcribe] passes all 26 to
    [whisper_full]. *)
Lemma C1_counterexample :
  List.length Examples.header44 = 44%nat
  /\ Forall is_int16 Examples.four_samples
  /\ List.length
       (read_wav (pipe (wav_file Examples.header44 Examples.four_samples)))
     = 26%nat
  /\ List.length
       (read_wav (pipe (wav_file Examples.header44 Examples.four_samples)))
     <> List.length Examples.four_samples
  /\ map to_Q
         (firstn 1 (read_wav (pipe (wav_file Examples.header44
                                             Examples.four_samples))))
     = [Some 0%Q]
  /\ In (EngineFull 1%positive (full_params default_params)
                    (read_wav (pipe (wav_file Examples.header44
                                              Examples.four_samples))))
        (effects (transcribe "a.wav"
                    (Session.pipe_device 8 (wav_file Examples.header44
                                             Examples.four_samples))
                    Examples.loaded)).
Proof.
  split; [reflexivity|].
  split; [unfold Examples.four_samples, is_int16; repeat constructor; lia|].
  split; [vm_compute; reflexivity|].
  split; [vm_compute; discriminate|].
  split; [vm_compute; reflexivity|].
  vm_compute. tauto.
Qed.

(** C1, amended. A seekable file made of a 44-byte header and N two-byte
    little-endian signed samples decodes to N floats; the i-th float is
    exactly the i-th sample divided by 32768 and lies in [-1,1); and when a
    model is loaded and N is not zero, these floats, in this order, are what
    [transcribe] passes to [whisper_full]. *)
Theorem C1_wav_decode_samples
        (file : stream) (header : list byte) (samples : list Z)
        (Hbytes : bytes file = wav_file header samples)
        (Hseek : seekable file = true)
        (Hheader : List.length header = 44%nat)
        (Hsamples : Forall is_int16 samples) :
  let pcm := read_wav file in
  List.length pcm = List.length samples
  /\ Forall2 (fun f s => has_value f (Qmake s 32768) /\ in_unit_range f)
             pcm samples
  /\ forall (w : World) (g : globals) (ctx : whisper_context)
            (audioPath : jstring) (path : string),
       g_ctx g = Some ctx ->
       GetStringUTFChars w audioPath = Some path ->
       fopen w path = Some file ->
       samples <> [] ->
       In (EngineFull ctx (full_params (g_params g)) pcm)
          (effects (transcribe audioPath w g)).
Proof.
  intros pcm. subst pcm.
  rewrite (read_wav_wav_file file header samples Hbytes Hseek Hheader
                             Hsamples).
  split; [apply length_map|].
  split; [apply normalize_samples; exact Hsamples|].
  intros w [c p] ctx audioPath path Hctx Hpath Hopen Hne.
  cbn in Hctx. subst c. run. rewrite Hpath, Hopen.
  rewrite (read_wav_wav_file file header samples Hbytes Hseek Hheader
                             Hsamples).
  destruct samples as [|s l]; [contradiction|]. cbn [map].
  destruct (whisper_full w ctx _ _ =? 0); cbn.
  - destruct (collect_segments _ _ _ _ _) as [[r' g'] t']. cbn. tauto.
  - tauto.
Qed.

Example read_wav_four_samples :
  map to_Q (read_wav (regular (wav_file Examples.header44
                                        Examples.four_samples)))
  = [Some (Qmake 8388608 (2 ^ 38)); Some (Qmake (-8388608) (2 ^ 38));
     Some (Qmake 16776704 (2 ^ 24)); Some (Qmake (-8388608) (2 ^ 23))].
Proof. vm_compute; reflexivity. Qed.

Lemma C1_witness :
  List.length Examples.header44 = 44%nat
  /\ Forall is_int16 Examples.four_samples
  /\ List.length
       (read_wav (regular (wav_file Examples.header44 Examples.four_samples)))
     = 4%nat
  /\ In (EngineFull 1%positive (full_params default_params)
                    (read_wav (regular (wav_file Examples.header44
                                                 Examples.four_samples))))
        (effects (transcribe "a.wav"
                    (Examples.device 8 (wav_file Examples.header44
                                                 Examples.four_samples))
                    Examples.loaded)).
Proof.
  assert (Hh : List.length Examples.header44 = 44%nat) by reflexivity.
  assert (Hs : Forall is_int16 Examples.four_samples)
    by (unfold Examples.four_samples, is_int16; repeat constructor; lia).
  destruct (C1_wav_decode_samples
              (regular (wav_file Examples.header44 Examples.four_samples))
              Examples.header44 Examples.four_samples
              eq_refl eq_refl Hh Hs) as [Hlen [_ Hcall]].
  split; [exact Hh|]. split; [exact Hs|]. split; [exact Hlen|].
  apply (Hcall (Examples.device 8 _) Examples.loaded 1%positive
               "a.wav"%string "a.wav"%string); try reflexivity.
  discriminate.
Defined.

(** C2 as stated does not hold: with context 1 loaded and a model path the
    JVM cannot decode, [initModel] returns -1, but it has already freed
    context 1 and reset [g_ctx]. *)
Lemma C2_counterexample :
  g_ctx Examples.loaded = Some 1%positive
  /\ GetStringUTFChars (Examples.out_of_memory 8 []) "model.bin" = None
  /\ initModel "model.bin" (Examples.out_of_memory 8 []) Examples.loaded
     = (-1,
        {| g_ctx := None; g_params := default_params |},
        [EngineFree 1%positive;
         Log ANDROID_LOG_ERROR "Failed to get model path string"])
  /\ g_ctx (state_after (initModel "model.bin"
                           (Examples.out_of_memory 8 []) Examples.loaded))
     <> g_ctx Examples.loaded.
Proof.
  split; [reflexivity|]. split; [reflexivity|]. split; [reflexivity|].
  discriminate.
Qed.

(** C2, amended. When a model handle exists and the path string fails to
    decode, [initModel] returns -1 after it has destroyed the existing
    handle: the handle is unset, the only engine call is the
    [whisper_free] of the old handle, and the parameters are unchanged. *)
Theorem C2_init_undecodable_path_frees_handle
        (w : World) (g : globals) (ctx : whisper_context)
        (modelPath : jstring)
        (Hctx : g_ctx g = Some ctx)
        (Hpath : GetStringUTFChars w modelPath = None) :
  initModel modelPath w g
  = (-1,
     {| g_ctx := None; g_params := g_params g |},
     [EngineFree ctx;
      Log ANDROID_LOG_ERROR "Failed to get model path string"]).
Proof.
  destruct g as [c p]. cbn in Hctx. subst c. run. rewrite Hpath.
  reflexivity.
Qed.

Lemma C2_witness :
  g_ctx Examples.loaded = Some 1%positive
  /\ GetStringUTFChars (Examples.out_of_memory 8 []) "model.bin" = None
  /\ initModel "model.bin" (Examples.out_of_memory 8 []) Examples.loaded
     = (-1,
        {| g_ctx := None; g_params := g_params Examples.loaded |},
        [EngineFree 1%positive;
         Log ANDROID_LOG_ERROR "Failed to get model path string"]).
Proof.
  split; [reflexivity|]. split; [reflexivity|].
  apply (C2_init_undecodable_path_frees_handle
           (Examples.out_of_memory 8 []) Examples.loaded 1%positive
           "model.bin"%string); reflexivity.
Defined.

(** C3 as stated does not hold: with language "en", an empty language
    argument that the JVM decodes overwrites the language with the empty
    string. *)
Lemma C3_counterexample :
  language (g_params Examples.loaded) = "en"%string
  /\ GetStringUTFChars (Examples.device 8 []) EmptyString = Some EmptyString
  /\ language
       (g_params
          (state_after
             (transcribeWithParams "a.wav" EmptyString false 0
                (Examples.device 8 []) Examples.loaded)))
     = EmptyString
  /\ language
       (g_params
          (state_after
             (transcribeWithParams "a.wav" EmptyString false 0
                (Examples.device 8 []) Examples.loaded)))
     <> language (g_params Examples.loaded).
Proof.
  split; [reflexivity|]. split; [reflexivity|]. split; [reflexivity|].
  discriminate.
Qed.

(** C3, amended. [transcribeWithParams] leaves the language at its prior
    value when the language argument fails to decode, and overwrites it
    with the decoded characters otherwise, also when they are the empty
    string. *)
Theorem C3_language_override
        (w : World) (g : globals) (audioPath language0 : jstring)
        (translate0 : jboolean) (threads : jint) :
  language
    (g_params
       (state_after
          (transcribeWithParams audioPath language0 translate0 threads w g)))
  = match GetStringUTFChars w language0 with
    | Some lang => lang
    | None => language (g_params g)
    end.
Proof.
  destruct (transcribeWithParams_unfold audioPath language0 translate0
              threads w g) as [_ Hst].
  rewrite Hst. cbn [g_params]. unfold overridden.
  destruct (GetStringUTFChars w language0); destruct (0 <? threads);
    reflexivity.
Qed.

(** C4 as stated does not hold: before any Init the thread count is the
    constant 4, which is not min(cores, 4) on a device with two cores; on a
    device that reports a hardware concurrency of 0, a successful Init leaves
    the thread count at 0; and a reported concurrency of 4294967295 becomes
    -1 as an [int], so that a successful Init leaves the thread count at -1,
    not at min(4294967295, 4). *)
Lemma C4_counterexample :
  n_threads (g_params initial_globals)
  <> Z.min (hardware_concurrency (Examples.device 2 [])) 4
  /\ reachable (fun _ => True)
       (state_after (invoke (InitModel "model.bin") (Examples.device 0 [])
                            initial_globals))
  /\ result (Bridge.initModel "model.bin" (Examples.device 0 [])
                              initial_globals) = 0
  /\ n_threads
       (g_params
          (state_after (invoke (InitModel "model.bin") (Examples.device 0 [])
                               initial_globals))) = 0
  /\ result (Bridge.initModel "model.bin" (Examples.device 4294967295 [])
                              initial_globals) = 0
  /\ n_threads
       (g_params
          (state_after (invoke (InitModel "model.bin")
                               (Examples.device 4294967295 [])
                               initial_globals))) = -1.
Proof.
  split; [vm_compute; discriminate|].
  split; [apply reach_call; [apply reach_start | exact I]|].
  repeat split.
Qed.

(** C4, amended. The thread count is 4 before any Init; every successful
    Init sets it to min(c, 4), where c is the reported hardware concurrency
    converted to a 32-bit [int], and c is the reported value itself when that
    is below 2^31; a parameter override changes the thread count only to a
    positive value; and the thread count is positive in every state
    reachable through calls during which the reported hardware concurrency
    lies between 1 and 2^31 - 1. *)
Theorem C4_n_threads_positive :
  n_threads (g_params initial_globals) = 4
  /\ (forall (w : World) (g : globals) (modelPath : jstring),
        result (Bridge.initModel modelPath w g) = 0 ->
        n_threads (g_params (state_after (Bridge.initModel modelPath w g)))
        = Z.min (to_int32 (hardware_concurrency w)) 4)
  /\ (forall u : Z, 0 <= u < 2 ^ 31 -> to_int32 u = u)
  /\ (forall (w : World) (g : globals) (audioPath lang : jstring)
             (tr : jboolean) (threads : jint),
        let n' :=
          n_threads
            (g_params
               (state_after
                  (Bridge.transcribeWithParams audioPath lang tr threads w g)))
        in n' = n_threads (g_params g) \/ (n' = threads /\ 0 < threads))
  /\ (forall g : globals,
        reachable (fun w => 0 < hardware_concurrency w < 2 ^ 31) g ->
        0 < n_threads (g_params g)).
Proof.
  assert (Hint : forall u : Z, 0 <= u < 2 ^ 31 -> to_int32 u = u).
  { intros u Hu. unfold to_int32. rewrite Z.mod_small; lia. }
  split; [reflexivity|]. split; [|split; [exact Hint|split]].
  - intros w g modelPath. rewrite initModel_cases.
    destruct (GetStringUTFChars w modelPath) as [path|]; [|discriminate].
    destruct (whisper_init_from_file_with_params w path _);
      [reflexivity|discriminate].
  - intros w g audioPath lang tr threads n'. subst n'.
    destruct (transcribeWithParams_unfold audioPath lang tr threads w g)
      as [_ Hst].
    rewrite Hst. cbn [g_params]. unfold overridden.
    destruct (Z.ltb_spec 0 threads); [right; split; [reflexivity|assumption]|].
    left. destruct (GetStringUTFChars w lang); reflexivity.
  - induction 1 as [|w c g Hreach IH Henv]; [reflexivity|].
    pose proof (invoke_n_threads c w g) as Hn. cbv zeta in Hn.
    destruct Hn as [Hn|[Hn|Hn]]; [rewrite Hn; exact IH| |exact Hn].
    rewrite Hn, (Hint (hardware_concurrency w)) by lia.
    apply Z.min_glb_lt; lia.
Qed.

Lemma C4_witness :
  reachable (fun w => 0 < hardware_concurrency w < 2 ^ 31)
            (state_after (invoke (InitModel "model.bin") (Examples.device 8 [])
                                 initial_globals))
  /\ 0 < n_threads
           (g_params
              (state_after (invoke (InitModel "model.bin")
                                   (Examples.device 8 []) initial_globals))).
Proof.
  assert (Hreach : reachable (fun w => 0 < hardware_concurrency w < 2 ^ 31)
                     (state_after (invoke (InitModel "model.bin")
                                          (Examples.device 8 [])
                                          initial_globals))).
  { apply reach_call; [apply reach_start | cbn; lia]. }
  split; [exact Hreach|].
  exact (proj2 (proj2 (proj2 (proj2 C4_n_threads_positive))) _ Hreach).
Defined.

(** C5. Without a model handle, [transcribe] returns the empty string,
    only logs an error, makes no engine call, touches no file, and leaves
    the globals as they were. *)
Theorem C5_transcribe_without_model
        (w : World) (g : globals) (audioPath : jstring)
        (Hctx : g_ctx g = None) :
  result (transcribe audioPath w g) = EmptyString
  /\ state_after (transcribe audioPath w g) = g
  /\ effects (transcribe audioPath w g)
     = [Log ANDROID_LOG_ERROR "Model not initialized"]
  /\ forallb (fun e => negb (is_engine_call e) && negb (is_file_access e))
             (effects (transcribe audioPath w g)) = true.
Proof.
  destruct g as [c p]. cbn in Hctx. subst c. repeat split.
Qed.

Lemma C5_witness :
  g_ctx initial_globals = None
  /\ result (transcribe "a.wav"
                        (Examples.device 8 (wav_file Examples.header44
                                                     Examples.four_samples))
                        initial_globals) = EmptyString.
Proof.
  split; [reflexivity|].
  apply (C5_transcribe_without_model
           (Examples.device 8 (wav_file Examples.header44
                                        Examples.four_samples))
           initial_globals "a.wav").
  reflexivity.
Defined.

(** C6 as stated does not hold for every file: a pipe that delivers 44
    bytes cannot seek, so the 44 bytes are decoded as 22 samples and
    [transcribe] runs the inference on them and returns its text. *)
Lemma C6_counterexample :
  (List.length (bytes (pipe Examples.header44)) <= 44)%nat
  /\ List.length (read_wav (pipe Examples.header44)) = 22%nat
  /\ result (transcribe "a.wav" (Session.pipe_device 8 Examples.header44)
                        Examples.loaded) = "hello"
  /\ In (EngineFull 1%positive (full_params default_params)
                    (read_wav (pipe Examples.header44)))
        (effects (transcribe "a.wav" (Session.pipe_device 8 Examples.header44)
                             Examples.loaded)).
Proof.
  split; [apply Nat.eq_le_incl; reflexivity|].
  split; [vm_compute; reflexivity|].
  split; [vm_compute; reflexivity|].
  vm_compute. tauto.
Qed.

(** C6, amended. A seekable file of at most 44 bytes decodes to no
    samples, and [transcribe] on such a file returns the empty string without
    any call to the engine (in particular without [whisper_full]), whatever
    the globals are. *)
Theorem C6_header_only_file
        (file : stream)
        (Hseek : seekable file = true)
        (Hlen : (List.length (bytes file) <= 44)%nat) :
  read_wav file = []
  /\ forall (w : World) (g : globals) (audioPath : jstring) (path : string),
       GetStringUTFChars w audioPath = Some path ->
       fopen w path = Some file ->
       result (transcribe audioPath w g) = EmptyString
       /\ forallb (fun e => negb (is_engine_call e))
                  (effects (transcribe audioPath w g)) = true.
Proof.
  pose proof (read_wav_short file Hseek Hlen) as Hpcm.
  split; [exact Hpcm|].
  intros w [[ctx|] p] audioPath path Hpath Hopen; run;
    [|split; reflexivity].
  rewrite Hpath, Hopen, Hpcm. split; reflexivity.
Qed.

Lemma C6_witness :
  seekable (regular Examples.header44) = true
  /\ (List.length (bytes (regular Examples.header44)) <= 44)%nat
  /\ read_wav (regular Examples.header44) = []
  /\ transcribe "a.wav" (Examples.device 8 Examples.header44) Examples.loaded
     = (EmptyString, Examples.loaded,
        [Log ANDROID_LOG_INFO "Transcribing audio: %s";
         FileOpen "a.wav"; FileClose "a.wav"; StringRelease "a.wav";
         Log ANDROID_LOG_ERROR "No audio data read"]).
Proof.
  assert (Hlen : (List.length (bytes (regular Examples.header44)) <= 44)%nat)
    by (apply Nat.eq_le_incl; reflexivity).
  split; [reflexivity|]. split; [exact Hlen|].
  split; [exact (proj1 (C6_header_only_file (regular Examples.header44)
                          eq_refl Hlen))|].
  reflexivity.
Defined.

(** C7. [transcribeWithParams] sets the thread count to the supplied value
    exactly when that value is positive and leaves it at its prior value
    otherwise, and it sets the translate flag to the supplied flag in every
    case. *)
Theorem C7_threads_and_translate_override
        (w : World) (g : globals) (audioPath lang : jstring)
        (tr : jboolean) (threads : jint) :
  let g' := state_after (transcribeWithParams audioPath lang tr threads w g)
  in
  n_threads (g_params g')
  = (if 0 <? threads then threads else n_threads (g_params g))
  /\ translate (g_params g') = tr.
Proof.
  intros g'. subst g'.
  destruct (transcribeWithParams_unfold audioPath lang tr threads w g)
    as [_ Hst].
  rewrite Hst. cbn [g_params]. unfold overridden.
  destruct (0 <? threads); destruct (GetStringUTFChars w lang);
    split; reflexivity.
Qed.

Example threads_override_examples :
  let after threads :=
    n_threads
      (g_params
         (state_after
            (transcribeWithParams "a.wav" "de" true threads
               (Examples.device 8 []) Examples.loaded))) in
  after 0 = 4 /\ after (-5) = 4 /\ after 8 = 8.
Proof. repeat split. Qed.

(** C8. [releaseModel] leaves the handle unset and the parameters as they
    were, in every state; without a handle it changes nothing and has no
    effect at all; so a second release after a first one is such a no-op. *)
Theorem C8_release_idempotent (w w' : World) (g : globals) :
  g_ctx (state_after (releaseModel w g)) = None
  /\ g_params (state_after (releaseModel w g)) = g_params g
  /\ (forall p : whisper_params,
        releaseModel w {| g_ctx := None; g_params := p |}
        = (tt, {| g_ctx := None; g_params := p |}, []))
  /\ releaseModel w' (state_after (releaseModel w g))
     = (tt, state_after (releaseModel w g), []).
Proof.
  rewrite releaseModel_cases. destruct g as [[c|] p]; repeat split.
Qed.

(** C9. Every operation of the stub returns its fixed value whatever its
    arguments and whatever the world answers: [initModel] returns -1, both
    transcribe operations return the empty string, [releaseModel] only
    logs, [getVersion] returns the placeholder; and no call on the stub
    makes an engine call or touches a file. *)
Theorem C9_stub_fixed_results
        (w : World) (modelPath audioPath lang : jstring)
        (tr : jboolean) (threads : jint) (c : call) :
  Stub.initModel modelPath w tt
  = (-1, tt,
     [Log ANDROID_LOG_WARN
          "Whisper stub: initModel called - native library not available"])
  /\ Stub.transcribe audioPath w tt
     = (EmptyString, tt,
        [Log ANDROID_LOG_WARN
             "Whisper stub: transcribe called - native library not available"])
  /\ Stub.transcribeWithParams audioPath lang tr threads w tt
     = (EmptyString, tt,
        [Log ANDROID_LOG_WARN
             "Whisper stub: transcribeWithParams called - native library not available"])
  /\ Stub.releaseModel w tt
     = (tt, tt, [Log ANDROID_LOG_WARN "Whisper stub: releaseModel called"])
  /\ Stub.getVersion w tt
     = ("stub-1.0 (whisper.cpp not available)", tt, [])
  /\ forallb (fun e => negb (is_engine_call e) && negb (is_file_access e))
             (effects (@invoke unit Stub.surface c w tt)) = true.
Proof.
  repeat split. destruct c; reflexivity.
Qed.

(** C10. When the path string fails to decode, the bridge's [initModel]
    returns the same status as the stub's [initModel] on the same
    arguments, and that status is -1. *)
Theorem C10_stub_init_code_is_path_decode_code
        (w : World) (g : globals) (modelPath : jstring)
        (Hpath : GetStringUTFChars w modelPath = None) :
  result (Stub.initModel modelPath w tt) = -1
  /\ result (Bridge.initModel modelPath w g)
     = result (Stub.initModel modelPath w tt).
Proof.
  split; [reflexivity|].
  rewrite initModel_cases, Hpath. reflexivity.
Qed.

Lemma C10_witness :
  GetStringUTFChars (Examples.out_of_memory 8 []) "model.bin" = None
  /\ result (Bridge.initModel "model.bin" (Examples.out_of_memory 8 [])
                              initial_globals)
     = result (Stub.initModel "model.bin" (Examples.out_of_memory 8 []) tt).
Proof.
  split; [reflexivity|].
  apply (C10_stub_init_code_is_path_decode_code
           (Examples.out_of_memory 8 []) initial_globals "model.bin").
  reflexivity.
Defined.

End Claims.

(* ===================================================================== *)
(** ** More on the WAV reader *)

Section PcmMore.

Import Binary32 Pcm.

Lemma byte_val_range (b : byte) : 0 <= byte_val b < 256.
Proof.
  unfold byte_val. pose proof (Byte.to_N_bounded b) as H. lia.
Qed.

Lemma int16_of_bytes_range (b0 b1 : byte) : is_int16 (int16_of_bytes b0 b1).
Proof.
  unfold is_int16, int16_of_bytes.
  pose proof (byte_val_range b0). pose proof (byte_val_range b1).
  destruct (Z.ltb_spec (byte_val b0 + 256 * byte_val b1) 32768); lia.
Qed.

(** Induction two bytes at a time. *)
Lemma pairs_ind (P : list byte -> Prop) :
  P [] -> (forall b, P [b]) ->
  (forall b0 b1 rest, P rest -> P (b0 :: b1 :: rest)) ->
  forall l, P l.
Proof.
  intros Hnil Hone Hstep.
  assert (H : forall l, P l /\ forall b, P (b :: l)).
  { induction l as [|b l [IH1 IH2]].
    - split; [exact Hnil | exact Hone].
    - split; [apply IH2 | intros b'; apply Hstep; exact IH1]. }
  intros l. apply H.
Qed.

Lemma read_samples_length (rest : list byte) :
  List.length (read_samples rest) = (List.length rest / 2)%nat.
Proof.
  induction rest as [|b|b0 b1 rest IH] using pairs_ind; try reflexivity.
  cbn [read_samples List.length]. rewrite IH.
  change (S (S (List.length rest))) with (2 + List.length rest)%nat.
  replace (2 + List.length rest)%nat with (1 * 2 + List.length rest)%nat by lia.
  rewrite Nat.div_add_l by lia. lia.
Qed.

Lemma read_samples_range (rest : list byte) :
  Forall (fun f => exists s, is_int16 s /\ f = normalize s) (read_samples rest).
Proof.
  induction rest as [|b|b0 b1 rest IH] using pairs_ind; try constructor.
  - exists (int16_of_bytes b0 b1). split; [apply int16_of_bytes_range|reflexivity].
  - exact IH.
Qed.

Lemma read_samples_odd_tail (rest : list byte) (b : byte) :
  Nat.even (List.length rest) = true ->
  read_samples (rest ++ [b]) = read_samples rest.
Proof.
  induction rest as [|b'|b0 b1 rest IH] using pairs_ind; intros He.
  - reflexivity.
  - discriminate.
  - cbn [app read_samples]. rewrite IH; [reflexivity|exact He].
Qed.

Lemma read_samples_app_even (front rest : list byte) :
  Nat.even (List.length front) = true ->
  read_samples (front ++ rest) = read_samples front ++ read_samples rest.
Proof.
  induction front as [|b|b0 b1 front IH] using pairs_ind; intros He.
  - reflexivity.
  - discriminate.
  - cbn [app read_samples]. rewrite IH; [reflexivity|exact He].
Qed.

End PcmMore.

(* ===================================================================== *)
(** ** More on the bridge *)

Section BridgeMore.

Import Binary32 Pcm Jni Bridge Session.
Local Open Scope string_scope.
Local Open Scope list_scope.
Local Open Scope Z_scope.

Lemma string_append_nil_r (s : string) : String.append s EmptyString = s.
Proof. induction s as [|a s IH]; cbn; [reflexivity | now rewrite IH]. Qed.

Lemma string_append_assoc (s1 s2 s3 : string) :
  String.append (String.append s1 s2) s3
  = String.append s1 (String.append s2 s3).
Proof. induction s1 as [|a s1 IH]; cbn; [reflexivity | now rewrite IH]. Qed.

(** The loop over the segments: what it returns and what it asks. *)
Lemma collect_segments_run (ctx : whisper_context) (indices : list Z) :
  forall (result0 : string) (w : World) (g : globals),
    collect_segments ctx indices result0 w g
    = (String.append result0 (segments_text w ctx indices), g,
       map (EngineSegmentText ctx) indices).
Proof.
  induction indices as [|i l IH]; intros r w g.
  - cbn. now rewrite string_append_nil_r.
  - cbn [collect_segments]. unfold bind at 1 2. cbn [emit ask].
    rewrite IH. cbn [app map]. unfold segments_text. cbn [map fold_right].
    unfold segment_text at 2.
    destruct (whisper_full_get_segment_text w ctx i) as [text|].
    + now rewrite string_append_assoc.
    + reflexivity.
Qed.

(** The six ways [transcribe] can end. *)
Lemma transcribe_cases (audioPath : jstring) (w : World) (g : globals) :
  transcribe audioPath w g
  = match g_ctx g with
    | None => (EmptyString, g, [Log ANDROID_LOG_ERROR "Model not initialized"])
    | Some ctx =>
        match GetStringUTFChars w audioPath with
        | None =>
            (EmptyString, g,
             [Log ANDROID_LOG_ERROR "Failed to get audio path string"])
        | Some path =>
            match fopen w path with
            | None =>
                (EmptyString, g,
                 [Log ANDROID_LOG_INFO "Transcribing audio: %s";
                  FileOpen path;
                  Log ANDROID_LOG_ERROR "Failed to open audio file: %s";
                  StringRelease audioPath])
            | Some contents =>
                match read_wav contents with
                | [] =>
                    (EmptyString, g,
                     read_effects audioPath path
                     ++ [Log ANDROID_LOG_ERROR "No audio data read"])
                | _ :: _ =>
                    let wparams := full_params (g_params g) in
                    let request :=
                      [Log ANDROID_LOG_DEBUG "Audio samples: %zu";
                       EngineFull ctx wparams (read_wav contents)] in
                    if whisper_full w ctx wparams (read_wav contents) =? 0
                    then
                      let indices :=
                        segment_indices (whisper_full_n_segments w ctx) in
                      (segments_text w ctx indices, g,
                       read_effects audioPath path ++ request
                       ++ EngineNSegments ctx
                          :: map (EngineSegmentText ctx) indices
                       ++ [Log ANDROID_LOG_INFO
                               "Transcription complete: %zu chars"])
                    else
                      (EmptyString, g,
                       read_effects audioPath path ++ request
                       ++ [Log ANDROID_LOG_ERROR "Whisper inference failed"])
                end
            end
        end
    end.
Proof.
  destruct g as [[ctx|] p]; run; [|reflexivity].
  destruct (GetStringUTFChars w audioPath) as [path|]; [|reflexivity].
  destruct (fopen w path) as [contents|]; [|reflexivity].
  destruct (read_wav contents) as [|f pcm]; [reflexivity|].
  destruct (whisper_full w ctx _ (f :: pcm) =? 0); cbn; [|reflexivity].
  rewrite collect_segments_run. cbn. reflexivity.
Qed.

(** [transcribeWithParams] in full: the release of the language string,
    then [transcribe] in the updated globals. *)
Lemma transcribeWithParams_run
      (audioPath lang : jstring) (tr : jboolean) (threads : jint)
      (w : World) (g : globals) :
  let g1 := {| g_ctx := g_ctx g;
               g_params := overridden (GetStringUTFChars w lang) tr threads
                                      (g_params g) |} in
  transcribeWithParams audioPath lang tr threads w g
  = (result (transcribe audioPath w g1), g1,
     match GetStringUTFChars w lang with
     | Some _ => [StringRelease lang]
     | None => []
     end ++ effects (transcribe audioPath w g1)).
Proof.
  destruct g as [c p]. unfold overridden.
  cbv [transcribeWithParams bind ret ask get put emit set_params
       result state_after effects g_ctx g_params fst snd].
  destruct (GetStringUTFChars w lang) as [l|];
    destruct (0 <? threads);
    match goal with
    | |- context [transcribe ?a ?w ?g] =>
        pose proof (transcribe_state a w g) as H;
        destruct (transcribe a w g) as [[r g'] t];
        unfold state_after in H; cbn in H; subst g'; reflexivity
    end.
Qed.


Lemma count_app (p : effect -> bool) (t1 t2 : list effect) :
  count p (t1 ++ t2) = (count p t1 + count p t2)%nat.
Proof. unfold count. now rewrite filter_app, length_app. Qed.

Lemma count_segment_queries (p : effect -> bool) (ctx : whisper_context)
      (indices : list Z) :
  (forall i, p (EngineSegmentText ctx i) = false) ->
  count p (map (EngineSegmentText ctx) indices) = 0%nat.
Proof.
  intros Hp. unfold count.
  induction indices as [|i l IH]; [reflexivity|].
  cbn [map filter]. now rewrite Hp.
Qed.

End BridgeMore.

(** Splits the effects of [transcribe] into its cases and counts in each. *)
Ltac count_effects :=
  cbv zeta;
  repeat match goal with
         | |- context [match ?x with _ => _ end] => destruct x eqn:?
         end;
  unfold Jni.effects, Session.read_effects; cbn [snd];
  repeat rewrite count_app;
  repeat match goal with
         | |- context [Session.count ?p (?e :: map ?f ?l ++ ?t)] =>
             change (e :: map f l ++ t) with ([e] ++ map f l ++ t)
         end;
  repeat rewrite count_app;
  try rewrite count_segment_queries by reflexivity;
  try reflexivity.

Section SessionFacts.

Import Binary32 Pcm Jni Bridge Session.
Local Open Scope string_scope.
Local Open Scope list_scope.
Local Open Scope Z_scope.

Lemma filter_segment_queries (p : effect -> bool) (ctx : whisper_context)
      (indices : list Z) :
  (forall i, p (EngineSegmentText ctx i) = false) ->
  filter p (map (EngineSegmentText ctx) indices) = [].
Proof.
  intros Hp. induction indices as [|i l IH]; [reflexivity|].
  cbn [map filter]. now rewrite Hp.
Qed.


(** The parameter update of [transcribeWithParams] in full. *)
Lemma update_params_run (lang : jstring) (tr : jboolean) (threads : jint)
      (w : World) (g : globals) :
  update_params lang tr threads w g
  = (tt,
     {| g_ctx := g_ctx g;
        g_params := overridden (GetStringUTFChars w lang) tr threads
                               (g_params g) |},
     match GetStringUTFChars w lang with
     | Some _ => [StringRelease lang]
     | None => []
     end).
Proof.
  destruct g as [c p]. unfold overridden.
  cbv [update_params bind ret ask get put emit set_params
       g_ctx g_params fst snd app].
  destruct (GetStringUTFChars w lang); destruct (0 <? threads); reflexivity.
Qed.

(** With no other caller in between, the two critical sections are the
    entry point as one step. *)
Lemma transcribeWithParams_alone
      (audioPath lang : jstring) (tr : jboolean) (threads : jint)
      (w : World) (g : globals) :
  transcribeWithParams_among [] audioPath lang tr threads w g
  = transcribeWithParams audioPath lang tr threads w g.
Proof.
  rewrite transcribeWithParams_run. cbv zeta.
  unfold transcribeWithParams_among. rewrite update_params_run.
  cbn [others_run app].
  match goal with
  | |- context [transcribe audioPath w ?g1] =>
      pose proof (transcribe_state audioPath w g1) as H;
      destruct (transcribe audioPath w g1) as [[r g'] t]
  end.
  unfold state_after, result, effects in *. cbn [fst snd] in *. subst g'.
  reflexivity.
Qed.

(** Other callers that only transcribe leave the globals as they are. *)
Lemma others_run_transcribe_only
      (others : list (World * critical_section)) (g : globals) :
  forallb is_transcribe others = true -> fst (others_run others g) = g.
Proof.
  revert g. induction others as [|[w s] others IH]; intros g Hq;
    [reflexivity|].
  cbn [forallb] in Hq. apply andb_prop in Hq. destruct Hq as [Hs Hq].
  destruct s as [modelPath|audioPath|lang tr threads|]; try discriminate.
  cbn [others_run enter]. rewrite state_after_bind_ret, transcribe_state.
  specialize (IH g Hq). destruct (others_run others g) as [g' t].
  exact IH.
Qed.

(** With a handle, a decodable path and a file that holds at least one
    sample, [transcribe] calls the inference with the current parameters. *)
Lemma transcribe_request
      (w : World) (g : globals) (ctx : whisper_context)
      (audioPath : jstring) (path : string) (contents : stream) :
  g_ctx g = Some ctx ->
  GetStringUTFChars w audioPath = Some path ->
  fopen w path = Some contents ->
  read_wav contents <> [] ->
  In (EngineFull ctx (full_params (g_params g)) (read_wav contents))
     (effects (transcribe audioPath w g)).
Proof.
  intros Hctx Hpath Hopen Hdata.
  rewrite transcribe_cases, Hctx, Hpath, Hopen. cbv zeta.
  destruct (read_wav contents) as [|f l]; [contradiction|].
  destruct (whisper_full w ctx _ (f :: l) =? 0);
    unfold effects, read_effects; cbn; tauto.
Qed.


End SessionFacts.

(* ===================================================================== *)
(** ** Further properties of the code *)

Section Extras.

Import Binary32 Pcm Jni Bridge Session.
Local Open Scope string_scope.
Local Open Scope list_scope.
Local Open Scope Z_scope.

(** X1. Whatever the stream holds, the reader yields one float for every
    complete pair of bytes it reads and nothing else: (length - 44) / 2 of
    them, rounded down and 0 for a shorter file, when the stream can seek,
    and length / 2 of them when it cannot, the header bytes included. *)
Theorem X1_read_wav_length (file : stream) :
  List.length (read_wav file)
  = ((List.length (bytes file) - (if seekable file then 44 else 0)) / 2)%nat.
Proof.
  unfold read_wav, after_seek. rewrite read_samples_length.
  destruct (seekable file).
  - rewrite length_skipn. reflexivity.
  - now rewrite Nat.sub_0_r.
Qed.

(** X2. Whatever the file holds, every float the reader yields is finite,
    is exactly n/32768 for some 16-bit signed n, and lies in [-1,1): the
    reader never produces an infinity or a NaN. *)
Theorem X2_read_wav_in_range (contents : stream) :
  Forall (fun f => in_unit_range f
                   /\ exists n, is_int16 n /\ has_value f (Qmake n 32768))
         (read_wav contents).
Proof.
  unfold read_wav.
  eapply Forall_impl; [|apply read_samples_range].
  intros f [n [Hn Hf]]. subst f. split.
  - apply normalize_in_unit_range; exact Hn.
  - exists n. split; [exact Hn | apply normalize_exact; exact Hn].
Qed.

(** X3. On a stream that can seek the first 44 bytes are never looked at:
    two regular files with the same bytes after a 44-byte prefix decode to
    the same samples.  On a stream that cannot seek they are read: the 44
    bytes come out as 22 samples in front of the others. *)
Theorem X3_read_wav_ignores_header (header1 header2 body : list byte)
        (H1 : List.length header1 = 44%nat)
        (H2 : List.length header2 = 44%nat) :
  read_wav (regular (header1 ++ body)) = read_wav (regular (header2 ++ body))
  /\ read_wav (pipe (header1 ++ body))
     = read_samples header1 ++ read_wav (regular (header1 ++ body))
  /\ List.length (read_samples header1) = 22%nat.
Proof.
  unfold read_wav, after_seek, regular, pipe, wav_header_size.
  cbn [seekable bytes].
  rewrite !skipn_app, H1, H2, Nat.sub_diag.
  rewrite (skipn_all2 header1), (skipn_all2 header2) by lia.
  split; [reflexivity|]. split.
  - cbn [app skipn]. apply read_samples_app_even. now rewrite H1.
  - now rewrite read_samples_length, H1.
Qed.

Lemma X3_witness :
  List.length Examples.header44 = 44%nat
  /\ List.length (repeat Byte.xff 44) = 44%nat
  /\ read_wav (regular (Examples.header44
                        ++ flat_map le16_bytes Examples.four_samples))
     = read_wav (regular (repeat Byte.xff 44
                          ++ flat_map le16_bytes Examples.four_samples)).
Proof.
  split; [reflexivity|]. split; [reflexivity|].
  apply (X3_read_wav_ignores_header Examples.header44 (repeat Byte.xff 44));
    reflexivity.
Defined.

(** X4. A single byte left over after the last complete sample is dropped:
    when the bytes the reader reads (those after offset 44 on a stream that
    can seek, all of them on one that cannot) are even in number, one more
    byte at the end does not change the decoded samples. *)
Theorem X4_read_wav_trailing_byte (file : stream) (b : byte)
        (Heven : Nat.even (List.length (bytes file)
                           - (if seekable file then 44 else 0)) = true) :
  read_wav {| bytes := bytes file ++ [b]; seekable := seekable file |}
  = read_wav file.
Proof.
  unfold read_wav, after_seek, wav_header_size. cbn [seekable bytes].
  destruct (seekable file).
  - rewrite skipn_app.
    destruct (Nat.le_gt_cases 44 (List.length (bytes file))) as [Hle|Hlt].
    + replace (44 - List.length (bytes file))%nat with 0%nat by lia.
      change (skipn 0 [b]) with [b]. apply read_samples_odd_tail.
      rewrite length_skipn. exact Heven.
    + rewrite (skipn_all2 (bytes file)) by lia.
      destruct (44 - List.length (bytes file))%nat as [|k] eqn:E; [lia|].
      cbn. destruct k; reflexivity.
  - apply read_samples_odd_tail. now rewrite Nat.sub_0_r in Heven.
Qed.

Lemma X4_witness :
  Nat.even (List.length (bytes clip) - (if seekable clip then 44 else 0))
  = true
  /\ read_wav {| bytes := bytes clip ++ [Byte.x7f]; seekable := seekable clip |}
     = read_wav clip.
Proof.
  split; [reflexivity|].
  apply (X4_read_wav_trailing_byte clip Byte.x7f). reflexivity.
Defined.

(** X5. When the path decodes but the engine cannot load the model,
    [initModel] returns -2 with no handle set; a handle that existed was
    freed before the attempt, the path string is released, and the
    parameters are unchanged. *)
Theorem X5_init_load_failure
        (w : World) (g : globals) (modelPath : jstring) (path : string)
        (Hpath : GetStringUTFChars w modelPath = Some path)
        (Hload : whisper_init_from_file_with_params
                   w path {| use_gpu := false |} = None) :
  initModel modelPath w g
  = (-2,
     {| g_ctx := None; g_params := g_params g |},
     match g_ctx g with
     | Some old => [EngineFree old]
     | None => []
     end
     ++ [Log ANDROID_LOG_INFO "Loading whisper model from: %s";
         EngineInit path {| use_gpu := false |};
         StringRelease modelPath;
         Log ANDROID_LOG_ERROR "Failed to initialize whisper model"]).
Proof.
  rewrite initModel_cases. cbv zeta. rewrite Hpath, Hload. reflexivity.
Qed.

Lemma X5_witness :
  GetStringUTFChars (scenario true None None 0 []) "model.bin"
  = Some "model.bin"
  /\ whisper_init_from_file_with_params
       (scenario true None None 0 []) "model.bin" {| use_gpu := false |}
     = None
  /\ result (initModel "model.bin" (scenario true None None 0 [])
                       Examples.loaded) = -2.
Proof.
  split; [reflexivity|]. split; [reflexivity|].
  rewrite (X5_init_load_failure (scenario true None None 0 [])
             Examples.loaded "model.bin" "model.bin");
    reflexivity.
Defined.

(** X6. A second successful [initModel] frees the handle of the first one
    before it asks the engine to load again, with the GPU switched off; it
    returns 0, holds the new handle, releases the path string, and changes
    nothing in the parameters but the thread count, which is at most 4. *)
Theorem X6_init_replaces_handle
        (w : World) (g : globals) (modelPath : jstring) (path : string)
        (old new : whisper_context)
        (Hold : g_ctx g = Some old)
        (Hpath : GetStringUTFChars w modelPath = Some path)
        (Hload : whisper_init_from_file_with_params
                   w path {| use_gpu := false |} = Some new) :
  initModel modelPath w g
  = (0,
     {| g_ctx := Some new;
        g_params := with_n_threads (Z.min (to_int32 (hardware_concurrency w)) 4)
                                   (g_params g) |},
     [EngineFree old;
      Log ANDROID_LOG_INFO "Loading whisper model from: %s";
      EngineInit path {| use_gpu := false |};
      StringRelease modelPath;
      Log ANDROID_LOG_INFO
          "Whisper model initialized successfully (threads: %d)"])
  /\ n_threads (g_params (state_after (initModel modelPath w g))) <= 4.
Proof.
  rewrite initModel_cases. cbv zeta. rewrite Hold, Hpath, Hload.
  split; [reflexivity|]. cbn. apply Z.le_min_r.
Qed.

Lemma X6_witness :
  g_ctx Examples.loaded = Some 1%positive
  /\ result (initModel "other.bin" (scenario true (Some 2%positive) None 0 [])
                       Examples.loaded) = 0
  /\ g_ctx (state_after
              (initModel "other.bin"
                         (scenario true (Some 2%positive) None 0 [])
                         Examples.loaded)) = Some 2%positive.
Proof.
  split; [reflexivity|].
  destruct (X6_init_replaces_handle
              (scenario true (Some 2%positive) None 0 []) Examples.loaded
              "other.bin" "other.bin" 1%positive 2%positive
              eq_refl eq_refl eq_refl) as [Hrun _].
  rewrite Hrun. split; reflexivity.
Defined.

(** X7. [initModel] returns 0, -1 or -2, and a handle is set afterwards
    exactly when it returned 0. *)
Theorem X7_init_status_and_handle
        (w : World) (g : globals) (modelPath : jstring) :
  (result (initModel modelPath w g) = 0
   \/ result (initModel modelPath w g) = -1
   \/ result (initModel modelPath w g) = -2)
  /\ (g_ctx (state_after (initModel modelPath w g)) <> None
      <-> result (initModel modelPath w g) = 0).
Proof.
  rewrite initModel_cases. cbv zeta.
  destruct (GetStringUTFChars w modelPath) as [path|].
  - destruct (whisper_init_from_file_with_params w path _); cbn.
    + split; [left; reflexivity|]. split; [reflexivity|discriminate].
    + split; [right; right; reflexivity|].
      split; [intros H; now elim H|discriminate].
  - cbn. split; [right; left; reflexivity|].
    split; [intros H; now elim H|discriminate].
Qed.

(** X8. [initModel] ends with the same status and the same globals whether
    or not [releaseModel] was called just before it: a loaded model never
    influences what a new Init returns or leaves behind. *)
Theorem X8_init_after_release
        (w w' : World) (g : globals) (modelPath : jstring) :
  result (initModel modelPath w (state_after (releaseModel w' g)))
  = result (initModel modelPath w g)
  /\ state_after (initModel modelPath w (state_after (releaseModel w' g)))
     = state_after (initModel modelPath w g).
Proof.
  rewrite releaseModel_cases, !initModel_cases. cbv zeta.
  destruct g as [[c|] p]; cbn [g_ctx g_params state_after fst snd];
    (destruct (GetStringUTFChars w modelPath) as [path|];
     [destruct (whisper_init_from_file_with_params w path _)|]);
    split; reflexivity.
Qed.

(** X9. [transcribe] and [getVersion] never change the globals, and
    [transcribeWithParams] never changes the handle: only [initModel] and
    [releaseModel] set or clear it. *)
Theorem X9_handle_only_set_by_init_and_release
        (w : World) (g : globals) (audioPath lang : jstring)
        (tr : jboolean) (threads : jint) :
  state_after (transcribe audioPath w g) = g
  /\ state_after (getVersion w g) = g
  /\ g_ctx (state_after (transcribeWithParams audioPath lang tr threads w g))
     = g_ctx g.
Proof.
  split; [apply transcribe_state|]. split; [reflexivity|].
  rewrite transcribeWithParams_run. reflexivity.
Qed.

(** X10. With a model loaded, an audio path that fails to decode makes
    [transcribe] return the empty string after an error log only: no file is
    opened, the engine is not called, and nothing is released. *)
Theorem X10_transcribe_undecodable_path
        (w : World) (g : globals) (ctx : whisper_context)
        (audioPath : jstring)
        (Hctx : g_ctx g = Some ctx)
        (Hpath : GetStringUTFChars w audioPath = None) :
  transcribe audioPath w g
  = (EmptyString, g,
     [Log ANDROID_LOG_ERROR "Failed to get audio path string"]).
Proof.
  rewrite transcribe_cases, Hctx, Hpath. reflexivity.
Qed.

Lemma X10_witness :
  g_ctx Examples.loaded = Some 1%positive
  /\ GetStringUTFChars (scenario false None (Some clip) 0 []) "a.wav" = None
  /\ result (transcribe "a.wav" (scenario false None (Some clip) 0 [])
                        Examples.loaded) = EmptyString.
Proof.
  split; [reflexivity|]. split; [reflexivity|].
  rewrite (X10_transcribe_undecodable_path
             (scenario false None (Some clip) 0 []) Examples.loaded
             1%positive "a.wav"); reflexivity.
Defined.

(** X11. With a model loaded, an audio file that cannot be opened makes
    [transcribe] return the empty string: the open was attempted once, the
    path string is released, and the engine is not called. *)
Theorem X11_transcribe_open_failure
        (w : World) (g : globals) (ctx : whisper_context)
        (audioPath : jstring) (path : string)
        (Hctx : g_ctx g = Some ctx)
        (Hpath : GetStringUTFChars w audioPath = Some path)
        (Hopen : fopen w path = None) :
  transcribe audioPath w g
  = (EmptyString, g,
     [Log ANDROID_LOG_INFO "Transcribing audio: %s";
      FileOpen path;
      Log ANDROID_LOG_ERROR "Failed to open audio file: %s";
      StringRelease audioPath]).
Proof.
  rewrite transcribe_cases, Hctx, Hpath, Hopen. reflexivity.
Qed.

Lemma X11_witness :
  g_ctx Examples.loaded = Some 1%positive
  /\ GetStringUTFChars (scenario true None None 0 []) "a.wav" = Some "a.wav"
  /\ fopen (scenario true None None 0 []) "a.wav" = None
  /\ result (transcribe "a.wav" (scenario true None None 0 [])
                        Examples.loaded) = EmptyString.
Proof.
  split; [reflexivity|]. split; [reflexivity|]. split; [reflexivity|].
  rewrite (X11_transcribe_open_failure
             (scenario true None None 0 []) Examples.loaded
             1%positive "a.wav" "a.wav"); reflexivity.
Defined.

(** X12. When the engine reports a nonzero status for the inference,
    [transcribe] returns the empty string and asks the engine for no
    segment: the inference call is the last engine call. *)
Theorem X12_transcribe_inference_failure
        (w : World) (g : globals) (ctx : whisper_context)
        (audioPath : jstring) (path : string) (contents : stream)
        (Hctx : g_ctx g = Some ctx)
        (Hpath : GetStringUTFChars w audioPath = Some path)
        (Hopen : fopen w path = Some contents)
        (Hdata : read_wav contents <> [])
        (Hstatus : whisper_full w ctx (full_params (g_params g))
                                (read_wav contents) <> 0) :
  transcribe audioPath w g
  = (EmptyString, g,
     [Log ANDROID_LOG_INFO "Transcribing audio: %s";
      FileOpen path; FileClose path; StringRelease audioPath;
      Log ANDROID_LOG_DEBUG "Audio samples: %zu";
      EngineFull ctx (full_params (g_params g)) (read_wav contents);
      Log ANDROID_LOG_ERROR "Whisper inference failed"]).
Proof.
  rewrite transcribe_cases, Hctx, Hpath, Hopen. cbv zeta.
  apply Z.eqb_neq in Hstatus.
  destruct (read_wav contents) as [|f pcm]; [contradiction|].
  rewrite Hstatus. reflexivity.
Qed.

Lemma X12_witness :
  read_wav clip <> []
  /\ whisper_full (scenario true None (Some clip) (-1) []) 1%positive
                  (full_params (g_params Examples.loaded)) (read_wav clip)
     <> 0
  /\ result (transcribe "a.wav" (scenario true None (Some clip) (-1) [])
                        Examples.loaded) = EmptyString.
Proof.
  assert (Hdata : read_wav clip <> []) by (vm_compute; discriminate).
  assert (Hstatus : whisper_full (scenario true None (Some clip) (-1) [])
                      1%positive (full_params (g_params Examples.loaded))
                      (read_wav clip) <> 0) by (cbn; discriminate).
  split; [exact Hdata|]. split; [exact Hstatus|].
  rewrite (X12_transcribe_inference_failure
             (scenario true None (Some clip) (-1) []) Examples.loaded
             1%positive "a.wav" "a.wav" clip eq_refl eq_refl eq_refl
             Hdata Hstatus).
  reflexivity.
Defined.

(** X13. When the inference succeeds, [transcribe] returns the texts of
    the segments 0, 1, ..., n_segments - 1 joined in this order with nothing
    between them, a null text counting as empty; it asks for each of these
    segments once, in order, and for no other. *)
Theorem X13_transcribe_concatenates_segments
        (w : World) (g : globals) (ctx : whisper_context)
        (audioPath : jstring) (path : string) (contents : stream)
        (Hctx : g_ctx g = Some ctx)
        (Hpath : GetStringUTFChars w audioPath = Some path)
        (Hopen : fopen w path = Some contents)
        (Hdata : read_wav contents <> [])
        (Hstatus : whisper_full w ctx (full_params (g_params g))
                                (read_wav contents) = 0) :
  let indices :=
    map Z.of_nat (seq 0 (Z.to_nat (whisper_full_n_segments w ctx))) in
  result (transcribe audioPath w g)
  = fold_right String.append EmptyString
      (map (fun i => match whisper_full_get_segment_text w ctx i with
                     | Some text => text
                     | None => EmptyString
                     end) indices)
  /\ filter is_engine_call (effects (transcribe audioPath w g))
     = EngineFull ctx (full_params (g_params g)) (read_wav contents)
       :: EngineNSegments ctx
       :: map (EngineSegmentText ctx) indices.
Proof.
  intros indices. rewrite transcribe_cases, Hctx, Hpath, Hopen. cbv zeta.
  destruct (read_wav contents) as [|f pcm]; [contradiction|].
  rewrite Hstatus. cbn [Z.eqb result effects fst snd].
  split; [reflexivity|].
  unfold read_effects. cbn [app filter is_engine_call].
  fold indices. unfold segment_indices. fold indices.
  rewrite filter_app. cbn [filter is_engine_call]. rewrite app_nil_r.
  f_equal. f_equal.
  induction indices as [|i l IH]; [reflexivity|].
  cbn [map filter is_engine_call]. now rewrite IH.
Qed.

Lemma X13_witness :
  read_wav clip <> []
  /\ result (transcribe "a.wav"
               (scenario true None (Some clip) 0
                         [Some "hello"; None; Some " world"])
               Examples.loaded) = "hello world".
Proof.
  assert (Hdata : read_wav clip <> []) by (vm_compute; discriminate).
  split; [exact Hdata|].
  destruct (X13_transcribe_concatenates_segments
              (scenario true None (Some clip) 0
                        [Some "hello"; None; Some " world"])
              Examples.loaded 1%positive "a.wav" "a.wav" clip
              eq_refl eq_refl eq_refl Hdata eq_refl) as [Hres _].
  rewrite Hres. reflexivity.
Defined.

(** X14. Whenever [transcribe] calls the inference, it does so on the
    handle that is set, with the request built from the current parameters,
    and on a buffer that is not empty and is the decoding of the file at the
    decoded audio path. *)
Theorem X14_inference_only_on_decoded_audio
        (w : World) (g : globals) (audioPath : jstring)
        (ctx : whisper_context) (wparams : whisper_full_params)
        (pcm : list float)
        (Hcall : In (EngineFull ctx wparams pcm)
                    (effects (transcribe audioPath w g))) :
  g_ctx g = Some ctx
  /\ wparams = full_params (g_params g)
  /\ pcm <> []
  /\ exists (path : string) (contents : stream),
       GetStringUTFChars w audioPath = Some path
       /\ fopen w path = Some contents
       /\ pcm = read_wav contents.
Proof.
  rewrite transcribe_cases in Hcall. cbv zeta in Hcall.
  destruct (g_ctx g) as [c|] eqn:Hctx;
    [|cbn in Hcall; destruct Hcall as [H|[]]; discriminate].
  destruct (GetStringUTFChars w audioPath) as [path|] eqn:Hpath;
    [|cbn in Hcall; destruct Hcall as [H|[]]; discriminate].
  destruct (fopen w path) as [contents|] eqn:Hopen;
    [|cbn in Hcall; repeat destruct Hcall as [Hcall|Hcall];
      try discriminate; contradiction].
  destruct (read_wav contents) as [|f l] eqn:Hpcm;
    [cbn in Hcall; repeat destruct Hcall as [Hcall|Hcall];
     try discriminate; contradiction|].
  assert (Hfound : EngineFull c (full_params (g_params g)) (f :: l)
                   = EngineFull ctx wparams pcm).
  { destruct (whisper_full w c _ (f :: l) =? 0);
      unfold effects, read_effects in Hcall; cbn [snd app] in Hcall;
      repeat (destruct Hcall as [Hcall|Hcall]; try discriminate);
      try exact Hcall; try contradiction.
    apply in_app_or in Hcall. destruct Hcall as [Hcall|Hcall].
    - apply in_map_iff in Hcall. destruct Hcall as [i [Hi _]]. discriminate.
    - destruct Hcall as [Hcall|[]]. discriminate. }
  injection Hfound as Hc Hw Hp. subst c wparams pcm.
  split; [reflexivity|]. split; [reflexivity|]. split; [discriminate|].
  exists path, contents.
  split; [first [reflexivity | assumption]|].
  split; [first [reflexivity | assumption]|].
  first [reflexivity | symmetry; exact Hpcm].
Qed.

Lemma X14_witness :
  In (EngineFull 1%positive (full_params default_params) (read_wav clip))
     (effects (transcribe "a.wav" (scenario true None (Some clip) 0 [])
                          Examples.loaded))
  /\ read_wav clip <> [].
Proof.
  assert (Hcall : In (EngineFull 1%positive (full_params default_params)
                                 (read_wav clip))
                     (effects (transcribe "a.wav"
                                 (scenario true None (Some clip) 0 [])
                                 Examples.loaded))).
  { rewrite transcribe_cases. vm_compute. tauto. }
  split; [exact Hcall|].
  exact (proj1 (proj2 (proj2 (X14_inference_only_on_decoded_audio
                                _ _ _ _ _ _ Hcall)))).
Defined.

(** X15. Once the audio path has decoded, [transcribe] releases the path
    string exactly once on every way out, attempts exactly one open, and
    closes the file exactly once if the open succeeded and never otherwise. *)
Theorem X15_transcribe_releases_what_it_takes
        (w : World) (g : globals) (ctx : whisper_context)
        (audioPath : jstring) (path : string)
        (Hctx : g_ctx g = Some ctx)
        (Hpath : GetStringUTFChars w audioPath = Some path) :
  count is_string_release (effects (transcribe audioPath w g)) = 1%nat
  /\ count is_file_open (effects (transcribe audioPath w g)) = 1%nat
  /\ count is_file_close (effects (transcribe audioPath w g))
     = match fopen w path with
       | Some _ => 1%nat
       | None => 0%nat
       end.
Proof.
  repeat split; rewrite transcribe_cases, Hctx, Hpath; count_effects.
Qed.

Lemma X15_witness :
  g_ctx Examples.loaded = Some 1%positive
  /\ count is_file_close
       (effects (transcribe "a.wav" (scenario true None (Some clip) 0 [None])
                            Examples.loaded)) = 1%nat.
Proof.
  split; [reflexivity|].
  exact (proj2 (proj2 (X15_transcribe_releases_what_it_takes
                         (scenario true None (Some clip) 0 [None])
                         Examples.loaded 1%positive "a.wav" "a.wav"
                         eq_refl eq_refl))).
Defined.

(** X16. As long as the other callers that get [g_mutex] between the
    parameter update of [transcribeWithParams] and its [transcribe] only
    transcribe (and always when there is no other caller, where the two
    sections are the entry point itself), the overrides apply to the
    inference of the same call: the call returns what [transcribe] returns
    in the globals left by its own update, its effects end with those of
    that [transcribe], and the request carries the supplied translate flag,
    the supplied thread count if it is positive and the prior one otherwise,
    the decoded language if it decoded and the prior one otherwise, greedy
    sampling and single-segment mode. *)
Theorem X16_overrides_apply_to_same_call
        (others : list (World * critical_section))
        (w : World) (g : globals) (ctx : whisper_context)
        (audioPath lang : jstring) (tr : jboolean) (threads : jint)
        (path : string) (contents : stream)
        (Hothers : forallb is_transcribe others = true)
        (Hctx : g_ctx g = Some ctx)
        (Hpath : GetStringUTFChars w audioPath = Some path)
        (Hopen : fopen w path = Some contents)
        (Hdata : read_wav contents <> []) :
  let own :=
    transcribe audioPath w (state_after (update_params lang tr threads w g)) in
  let among :=
    transcribeWithParams_among others audioPath lang tr threads w g in
  transcribeWithParams_among [] audioPath lang tr threads w g
  = transcribeWithParams audioPath lang tr threads w g
  /\ result among = result own
  /\ (exists before : list effect, effects among = before ++ effects own)
  /\ exists wparams : whisper_full_params,
       In (EngineFull ctx wparams (read_wav contents)) (effects own)
       /\ wp_translate wparams = tr
       /\ wp_n_threads wparams
          = (if 0 <? threads then threads else n_threads (g_params g))
       /\ wp_language wparams
          = match GetStringUTFChars w lang with
            | Some l => l
            | None => language (g_params g)
            end
       /\ strategy wparams = WHISPER_SAMPLING_GREEDY
       /\ single_segment wparams = true.
Proof.
  intros own among. subst own among.
  split; [apply transcribeWithParams_alone|].
  unfold transcribeWithParams_among. rewrite update_params_run.
  cbn [state_after fst snd].
  set (g1 := {| g_ctx := g_ctx g;
                g_params := overridden (GetStringUTFChars w lang) tr threads
                                       (g_params g) |}).
  pose proof (others_run_transcribe_only others g1 Hothers) as Hsame.
  destruct (others_run others g1) as [g2 t2]. cbn [fst] in Hsame. subst g2.
  pose proof (transcribe_request w g1 ctx audioPath path contents
                Hctx Hpath Hopen Hdata) as Hreq.
  destruct (transcribe audioPath w g1) as [[text g3] t3].
  cbn [result effects fst snd] in *.
  split; [reflexivity|].
  split; [eexists; rewrite app_assoc; reflexivity|].
  exists (full_params (g_params g1)).
  split; [exact Hreq|].
  subst g1. cbn [g_params]. unfold overridden.
  destruct (GetStringUTFChars w lang); destruct (0 <? threads);
    repeat split; reflexivity.
Qed.

Lemma X16_witness :
  forallb is_transcribe
          [(scenario true None (Some clip) 0 [], InTranscribe "b.wav")] = true
  /\ read_wav clip <> []
  /\ exists wparams : whisper_full_params,
       In (EngineFull 1%positive wparams (read_wav clip))
          (effects
             (transcribe "a.wav" (scenario true None (Some clip) 0 [])
                (state_after
                   (update_params "de" true 2
                      (scenario true None (Some clip) 0 [])
                      Examples.loaded))))
       /\ wp_n_threads wparams = 2 /\ wp_language wparams = "de".
Proof.
  assert (Hdata : read_wav clip <> []) by (vm_compute; discriminate).
  split; [reflexivity|]. split; [exact Hdata|].
  destruct (X16_overrides_apply_to_same_call
              [(scenario true None (Some clip) 0 [], InTranscribe "b.wav")]
              (scenario true None (Some clip) 0 []) Examples.loaded
              1%positive "a.wav" "de" true 2 "a.wav" clip
              eq_refl eq_refl eq_refl eq_refl Hdata)
    as [_ [_ [_ [wparams [Hin [_ [Hn [Hl _]]]]]]]].
  exists wparams. split; [exact Hin|]. split; [exact Hn | exact Hl].
Defined.

(** X17. The overrides stay: a later plain [transcribe] sends the engine a
    request with the translate flag, thread count and language that the
    earlier [transcribeWithParams] left in the parameters. *)
Theorem X17_overrides_persist
        (w w2 : World) (g : globals) (ctx : whisper_context)
        (audioPath lang audioPath2 : jstring) (tr : jboolean) (threads : jint)
        (path2 : string) (contents2 : stream)
        (Hctx : g_ctx g = Some ctx)
        (Hpath : GetStringUTFChars w2 audioPath2 = Some path2)
        (Hopen : fopen w2 path2 = Some contents2)
        (Hdata : read_wav contents2 <> []) :
  exists wparams : whisper_full_params,
    In (EngineFull ctx wparams (read_wav contents2))
       (effects
          (transcribe audioPath2 w2
             (state_after
                (transcribeWithParams audioPath lang tr threads w g))))
    /\ wp_translate wparams = tr
    /\ wp_n_threads wparams
       = (if 0 <? threads then threads else n_threads (g_params g))
    /\ wp_language wparams
       = match GetStringUTFChars w lang with
         | Some l => l
         | None => language (g_params g)
         end.
Proof.
  exists (full_params (overridden (GetStringUTFChars w lang) tr threads
                                  (g_params g))).
  split.
  - rewrite transcribeWithParams_run. cbv zeta. unfold state_after at 1.
    cbn [fst snd].
    apply (transcribe_request w2
             {| g_ctx := g_ctx g;
                g_params := overridden (GetStringUTFChars w lang) tr threads
                                       (g_params g) |}
             ctx audioPath2 path2 contents2); assumption.
  - unfold overridden.
    destruct (GetStringUTFChars w lang); destruct (0 <? threads);
      repeat split; reflexivity.
Qed.

Lemma X17_witness :
  read_wav clip <> []
  /\ exists wparams : whisper_full_params,
       In (EngineFull 1%positive wparams (read_wav clip))
          (effects
             (transcribe "b.wav" (scenario true None (Some clip) 0 [])
                (state_after
                   (transcribeWithParams "a.wav" "de" true 2
                      (scenario true None None 0 []) Examples.loaded))))
       /\ wp_translate wparams = true /\ wp_n_threads wparams = 2.
Proof.
  assert (Hdata : read_wav clip <> []) by (vm_compute; discriminate).
  split; [exact Hdata|].
  destruct (X17_overrides_persist
              (scenario true None None 0 [])
              (scenario true None (Some clip) 0 []) Examples.loaded
              1%positive "a.wav" "de" "b.wav" true 2 "b.wav" clip
              eq_refl eq_refl eq_refl Hdata)
    as [wparams [Hin [Ht [Hn _]]]].
  exists wparams. split; [exact Hin|]. split; [exact Ht | exact Hn].
Defined.



(** X19. After an [initModel] that did not return 0, and after a
    [releaseModel], [transcribe] returns the empty string with an error log
    only, also when a model was loaded before the failed Init. *)
Theorem X19_no_transcription_after_failed_init
        (w w' : World) (g : globals) (modelPath audioPath : jstring)
        (Hfail : result (initModel modelPath w g) <> 0) :
  transcribe audioPath w' (state_after (initModel modelPath w g))
  = (EmptyString, state_after (initModel modelPath w g),
     [Log ANDROID_LOG_ERROR "Model not initialized"])
  /\ transcribe audioPath w' (state_after (releaseModel w g))
     = (EmptyString, state_after (releaseModel w g),
        [Log ANDROID_LOG_ERROR "Model not initialized"]).
Proof.
  split.
  - rewrite initModel_cases in *. cbv zeta in *.
    destruct (GetStringUTFChars w modelPath) as [path|];
      [destruct (whisper_init_from_file_with_params w path _)|];
      first [now elim Hfail | reflexivity].
  - rewrite releaseModel_cases. destruct g as [[c|] p]; reflexivity.
Qed.

Lemma X19_witness :
  result (initModel "model.bin" (scenario false None None 0 []) Examples.loaded)
  <> 0
  /\ result (transcribe "a.wav" (scenario true None (Some clip) 0 [])
               (state_after (initModel "model.bin"
                               (scenario false None None 0 [])
                               Examples.loaded)))
     = EmptyString.
Proof.
  assert (Hfail : result (initModel "model.bin" (scenario false None None 0 [])
                                    Examples.loaded) <> 0)
    by (cbn; discriminate).
  split; [exact Hfail|].
  rewrite (proj1 (X19_no_transcription_after_failed_init
                    (scenario false None None 0 [])
                    (scenario true None (Some clip) 0 [])
                    Examples.loaded "model.bin" "a.wav" Hfail)).
  reflexivity.
Defined.


(** X21. The parameter update and the transcription of
    [transcribeWithParams] are not one atomic step: when another caller's
    parameter update gets [g_mutex] between them, with a language that
    decodes and a positive thread count, the one inference of this call runs
    with the other caller's translate flag, thread count and language, not
    with its own. *)
Theorem X21_another_update_lands_between
        (w w' : World) (g : globals) (ctx : whisper_context)
        (audioPath lang lang' : jstring) (tr tr' : jboolean)
        (threads threads' : jint)
        (path l' : string) (contents : stream)
        (Hctx : g_ctx g = Some ctx)
        (Hpath : GetStringUTFChars w audioPath = Some path)
        (Hopen : fopen w path = Some contents)
        (Hdata : read_wav contents <> [])
        (Hlang' : GetStringUTFChars w' lang' = Some l')
        (Hthreads' : 0 < threads') :
  exists wparams : whisper_full_params,
    filter is_inference
      (effects (transcribeWithParams_among
                  [(w', InUpdate lang' tr' threads')]
                  audioPath lang tr threads w g))
    = [EngineFull ctx wparams (read_wav contents)]
    /\ wp_translate wparams = tr'
    /\ wp_n_threads wparams = threads'
    /\ wp_language wparams = l'.
Proof.
  unfold transcribeWithParams_among. rewrite update_params_run.
  cbn [others_run enter]. rewrite update_params_run.
  cbn [state_after effects fst snd g_ctx g_params]. rewrite Hlang'.
  match goal with
  | |- context [transcribe audioPath w ?g2] =>
      exists (full_params (g_params g2));
      rewrite (transcribe_cases audioPath w g2)
  end.
  cbn [g_ctx g_params]. rewrite Hctx, Hpath, Hopen. cbv zeta.
  apply Z.ltb_lt in Hthreads'.
  split.
  - destruct (read_wav contents) as [|f pcm]; [contradiction|].
    match goal with
    | |- context [if ?b then _ else _] => destruct b
    end;
      cbv beta iota zeta delta [effects read_effects snd];
      destruct (GetStringUTFChars w lang);
      repeat rewrite filter_app; cbn [filter is_inference app];
      repeat rewrite filter_app;
      try rewrite filter_segment_queries by reflexivity;
      reflexivity.
  - unfold overridden. rewrite Hthreads'. repeat split.
Qed.

Lemma X21_witness :
  read_wav clip <> []
  /\ exists wparams : whisper_full_params,
       filter is_inference
         (effects (transcribeWithParams_among
                     [(scenario true None None 0 [], InUpdate "fr" false 1)]
                     "a.wav" "de" true 2
                     (scenario true None (Some clip) 0 [])
                     Examples.loaded))
       = [EngineFull 1%positive wparams (read_wav clip)]
       /\ wp_translate wparams = false
       /\ wp_n_threads wparams = 1
       /\ wp_language wparams = "fr".
Proof.
  assert (Hdata : read_wav clip <> []) by (vm_compute; discriminate).
  split; [exact Hdata|].
  apply (X21_another_update_lands_between
           (scenario true None (Some clip) 0 [])
           (scenario true None None 0 []) Examples.loaded 1%positive
           "a.wav" "de" "fr" true false 2 1 "a.wav" "fr" clip);
    try reflexivity.
  exact Hdata.
Defined.

End Extras.
